(** * ICMP echo probe (02-icmp.cpp): checksum and probe loop

    A shallow embedding of the raw-socket ICMP echo tool: the Internet
    checksum routine [calculate_checksum] and the probe loop of [main],
    together with the properties of both that the design document states
    (Part II) and further properties read off the program (Part III).

    Platform assumptions, as on the Linux targets the program is written
    for: [unsigned char] is 8 bits, [unsigned short] 16 bits, [unsigned int]
    and [int] 32 bits, [double] is IEEE binary64, and the clock counts
    nanoseconds.  The byte order of the host is a parameter. *)

From Stdlib Require Import ZArith Lia List Bool String Ascii DecimalString.
From Stdlib.Strings Require Import Byte.
From Stdlib.Floats Require Import SpecFloat.
From stdpp Require Import base option list.

Local Open Scope Z_scope.

(** * Part I: the model *)

(** ** Bytes and fixed-width integers *)

Module Bytes.

(** The value of an [unsigned char]. *)
Definition to_Z (b : byte) : Z := Z.of_N (Byte.to_N b).

(** Conversion of an integer to [unsigned char]: reduction modulo 256. *)
Definition of_Z (z : Z) : byte :=
  default x00 (Byte.of_N (Z.to_N (z mod 256))).

End Bytes.

(** Wrap-around of [unsigned int] and [unsigned short] arithmetic. *)
Definition u32 (z : Z) : Z := z mod 2 ^ 32.
Definition u16 (z : Z) : Z := z mod 2 ^ 16.

(** Byte order of the machine the program runs on. *)
Inductive endianness := LittleEndian | BigEndian.

(** ** Constants of the program and of the system headers it includes *)

Definition PACKET_SIZE : nat := 56.
Definition MAX_WAIT_TIME : Z := 1000.
Definition BUFFER_SIZE : nat := 1024.
Definition GOOGLE_DNS : string := "8.8.8.8".

(** [<netinet/ip_icmp.h>]: message types and [sizeof(struct icmphdr)]. *)
Definition ICMP_ECHO : Z := 8.
Definition ICMP_ECHOREPLY : Z := 0.
Definition sizeof_icmphdr : nat := 8.

(** Offsets of the fields of [struct icmphdr] and [struct iphdr]. *)
Module Off.
Definition icmp_type : nat := 0.
Definition icmp_code : nat := 1.
Definition icmp_checksum : nat := 2.
Definition icmp_id : nat := 4.
Definition icmp_sequence : nat := 6.
Definition ip_ihl : nat := 0.
Definition ip_ttl : nat := 8.
Definition ip_saddr : nat := 12.
End Off.

(** ** Output *)

(** What the program writes, one constructor per output statement. *)
Inductive Line :=
| EchoReplyLine (icmp_seq ttl duration_ns : Z)
| SendFailedLine
| TimedOutLine.

Inductive Stream := Stdout | Stderr.

Definition stream_of (l : Line) : Stream :=
  match l with
  | EchoReplyLine _ _ _ => Stdout
  | SendFailedLine | TimedOutLine => Stderr
  end.

(** Decimal text of an integer, as [operator<<] prints an [int]. *)
Definition dec (z : Z) : string := NilZero.string_of_int (Z.to_int z).

(** [inet_ntoa]: dotted-decimal text of the four bytes of an address. *)
Definition inet_ntoa (a : list byte) : string :=
  String.concat "." (map (fun b => dec (Bytes.to_Z b)) a).

(** [inet_addr(GOOGLE_DNS)], in network byte order. *)
Definition target_addr : list byte := [x08; x08; x08; x08].

(** Conversion of a [long] to [double] and division of doubles, both
    rounding to nearest even. *)
Definition double_of_Z (z : Z) : spec_float := binary_normalize 53 1024 z 0 false.
Definition double_div (x y : spec_float) : spec_float := SFdiv 53 1024 x y.

(** [num / den] rounded to the nearest integer, ties to even. *)
Definition round_half_even (num den : Z) : Z :=
  let q := num / den in
  let r := num mod den in
  if 2 * r <? den then q
  else if den <? 2 * r then q + 1
  else if Z.even q then q else q + 1.

(** The magnitude [m * 2^e] in hundredths, rounded the way the C library
    rounds the decimal expansion of a double. *)
Definition hundredths (m : positive) (e : Z) : Z :=
  if 0 <=? e then Z.pos m * 2 ^ e * 100
  else round_half_even (Z.pos m * 100) (2 ^ (- e)).

Definition sign_text (s : bool) : string := if s then "-" else "".

(** A double written under [std::fixed << std::setprecision(2)]. *)
Definition fixed2 (x : spec_float) : string :=
  match x with
  | S754_zero s => sign_text s ++ "0" ++ "." ++ "00"
  | S754_finite s m e =>
      let h := hundredths m e in
      sign_text s ++ dec (h / 100) ++ "." ++ dec (h / 10 mod 10) ++ dec (h mod 10)
  | S754_infinity s => sign_text s ++ "inf"
  | S754_nan => "nan"
  end%string.

(** [duration.count() / 1000000.0] under that format. *)
Definition millis_text (duration_ns : Z) : string :=
  fixed2 (double_div (double_of_Z duration_ns) (double_of_Z 1000000)).

(** The characters of each line. *)
Definition render (l : Line) : string :=
  match l with
  | EchoReplyLine icmp_seq ttl duration_ns =>
      "64 bytes from " ++ inet_ntoa target_addr ++ ": icmp_seq=" ++ dec icmp_seq
        ++ " ttl=" ++ dec ttl ++ " time=" ++ millis_text duration_ns ++ " ms"
        ++ String "010" ""
  | SendFailedLine => "Failed to send ICMP packet" ++ String "010" ""
  | TimedOutLine => "Request timed out" ++ String "010" ""
  end%string.

(** A text that ends in a point and two decimal digits. *)
Definition is_digit (c : ascii) : bool :=
  (48 <=? nat_of_ascii c)%nat && (nat_of_ascii c <=? 57)%nat.

Definition two_decimals (t : string) : Prop :=
  exists whole d1 d2,
    t = (whole ++ "." ++ String d1 (String d2 ""))%string
    /\ is_digit d1 = true /\ is_digit d2 = true.

Definition is_finite (x : spec_float) : bool :=
  match x with
  | S754_zero _ | S754_finite _ _ _ => true
  | S754_infinity _ | S754_nan => false
  end.

(** Whether [sub] occurs in [t]. *)
Definition contains (sub t : string) : bool :=
  match String.index 0 sub t with
  | Some _ => true
  | None => false
  end.

(** ** The environment *)

(** Everything the program obtains from outside, indexed by the number of
    earlier calls of the same kind. *)
Record World := {
  getpid : Z;
  (** contents of a local array before the program writes to it *)
  uninit : nat -> byte;
  (** [std::chrono::high_resolution_clock::now()], in nanoseconds *)
  now : nat -> Z;
  (** return value of [sendto] *)
  sendto : nat -> Z;
  (** [recvfrom]: [None] for a return value of -1, else the datagram *)
  recvfrom : nat -> option (list byte)
}.

(** ** Program state *)

(** Control points of [main]: the test of the outer [while], the test of
    the inner [while] (with [start], and [received] still false), and the
    end of the function. *)
Inductive Phase :=
| LoopHead
| WaitHead (start : Z)
| Returned.

Record State := mkState {
  send_count : Z;
  sequence : Z;
  send_buffer : list byte;
  recv_buffer : list byte;
  (** calls made so far, by kind *)
  clock_reads : nat;
  sends : nat;
  recvs : nat;
  (** the buffers handed to [sendto], oldest first *)
  sent : list (list byte);
  (** the lines written, oldest first *)
  output : list Line;
  pc : Phase
}.

Definition set_send_buffer (m : list byte) (s : State) : State :=
  mkState (send_count s) (sequence s) m (recv_buffer s) (clock_reads s)
          (sends s) (recvs s) (sent s) (output s) (pc s).

Definition set_recv_buffer (m : list byte) (s : State) : State :=
  mkState (send_count s) (sequence s) (send_buffer s) m (clock_reads s)
          (sends s) (recvs s) (sent s) (output s) (pc s).

Definition set_pc (p : Phase) (s : State) : State :=
  mkState (send_count s) (sequence s) (send_buffer s) (recv_buffer s)
          (clock_reads s) (sends s) (recvs s) (sent s) (output s) p.

(** One more reading of the clock. *)
Definition tick (s : State) : State :=
  mkState (send_count s) (sequence s) (send_buffer s) (recv_buffer s)
          (S (clock_reads s)) (sends s) (recvs s) (sent s) (output s) (pc s).

(** One more [sendto], of the first [PACKET_SIZE + sizeof(struct icmphdr)]
    bytes of the send buffer. *)
Definition record_send (s : State) : State :=
  mkState (send_count s) (sequence s) (send_buffer s) (recv_buffer s)
          (clock_reads s) (S (sends s)) (recvs s)
          (sent s ++ [take (PACKET_SIZE + sizeof_icmphdr) (send_buffer s)])
          (output s) (pc s).

(** One more [recvfrom] that returned -1. *)
Definition record_recv (s : State) : State :=
  mkState (send_count s) (sequence s) (send_buffer s) (recv_buffer s)
          (clock_reads s) (sends s) (S (recvs s)) (sent s) (output s) (pc s).

(** One more [recvfrom] that returned datagram [d]: it overwrites the
    front of the receive buffer, cut to the size of the buffer. *)
Definition deliver (d : list byte) (s : State) : State :=
  let d' := take BUFFER_SIZE d in
  record_recv (set_recv_buffer (d' ++ drop (length d') (recv_buffer s)) s).

(** One more line written. *)
Definition emit (l : Line) (s : State) : State :=
  mkState (send_count s) (sequence s) (send_buffer s) (recv_buffer s)
          (clock_reads s) (sends s) (recvs s) (sent s) (output s ++ [l]) (pc s).

(** The two arrays have their declared sizes. *)
Definition wf (s : State) : Prop :=
  length (send_buffer s) = (PACKET_SIZE + sizeof_icmphdr)%nat
  /\ length (recv_buffer s) = BUFFER_SIZE.

(** ** A state monad with undefined behaviour *)

Definition M (A : Type) : Type := State -> option (A * State).

Definition ret {A} (a : A) : M A := fun s => Some (a, s).

Definition bind {A B} (m : M A) (k : A -> M B) : M B :=
  fun s => match m s with
           | Some (a, s') => k a s'
           | None => None
           end.

(** An access that may fall outside its array. *)
Definition lift {A} (o : option A) : M A :=
  fun s => match o with
           | Some a => Some (a, s)
           | None => None
           end.

Definition gets {A} (f : State -> A) : M A := fun s => Some (f s, s).
Definition modify (f : State -> State) : M unit := fun s => Some (tt, f s).

Declare Scope prog_scope.
Delimit Scope prog_scope with prog.
Notation "x <- m ;; k" := (bind m (fun x => k))
  (at level 100, m at next level, right associativity) : prog_scope.
Notation "m ;; k" := (bind m (fun _ => k))
  (at level 100, right associativity) : prog_scope.

(** ** The fields of a received datagram

    The values the program reads from a datagram in the receive buffer,
    gathered for the statements of Part II. *)
Record Reply := mkReply {
  reply_icmp : nat;        (** offset of the ICMP header: [ip_header->ihl * 4] *)
  reply_type : Z;          (** [recv_icmp->type] *)
  reply_id : Z;            (** [recv_icmp->un.echo.id] *)
  reply_sequence : Z;      (** [recv_icmp->un.echo.sequence] *)
  reply_checksum : Z;      (** [recv_icmp->checksum] as received *)
  reply_ttl : Z;           (** [ip_header->ttl] *)
  (** the checksum of the ICMP bytes with the checksum field zeroed *)
  reply_recomputed : Z
}.

Section Model.

Variable host : endianness.

(** Reading an [unsigned short] whose first byte in memory is [b0]. *)
Definition load16 (b0 b1 : byte) : Z :=
  match host with
  | LittleEndian => Bytes.to_Z b0 + 256 * Bytes.to_Z b1
  | BigEndian => 256 * Bytes.to_Z b0 + Bytes.to_Z b1
  end.

(** The two bytes an [unsigned short] of value [v] occupies in memory. *)
Definition store16 (v : Z) : byte * byte :=
  match host with
  | LittleEndian => (Bytes.of_Z v, Bytes.of_Z (Z.shiftr v 8))
  | BigEndian => (Bytes.of_Z (Z.shiftr v 8), Bytes.of_Z v)
  end.

(** Accesses to an array [m] at byte offset [i]. *)
Definition read8 (m : list byte) (i : nat) : option Z :=
  Bytes.to_Z <$> m !! i.

Definition read16 (m : list byte) (i : nat) : option Z :=
  b0 ← m !! i; b1 ← m !! S i; Some (load16 b0 b1).

Definition write8 (m : list byte) (i : nat) (v : Z) : option (list byte) :=
  if decide (i < length m)%nat then Some (<[i := Bytes.of_Z v]> m) else None.

Definition write16 (m : list byte) (i : nat) (v : Z) : option (list byte) :=
  if decide (S i < length m)%nat
  then Some (<[S i := (store16 v).2]> (<[i := (store16 v).1]> m))
  else None.

(** ** The checksum routine

    [unsigned short calculate_checksum(void* b, int len)].  The memory
    behind the pointer is a list of bytes.  A read past its end is
    undefined in C++ and is [None] here. *)

(** The loop [for (sum = 0; len > 1; len -= 2) sum += *buf++;], from
    pointer position [buf] with [len] bytes to go and accumulator [sum];
    it returns the three at the exit of the loop. *)
Fixpoint checksum_words (buf : list byte) (len sum : Z)
  : option (list byte * Z * Z) :=
  if 1 <? len then
    match buf with
    | b0 :: b1 :: buf' =>
        checksum_words buf' (len - 2) (u32 (sum + load16 b0 b1))
    | _ => None
    end
  else Some (buf, len, sum).

Definition calculate_checksum (b : list byte) (len : Z) : option Z :=
  '(buf, len, sum) ← checksum_words b len 0;
  sum ← (if len =? 1
         then match buf with
              | c :: _ => Some (u32 (sum + Bytes.to_Z c))
              | [] => None
              end
         else Some sum);
  let sum := u32 (Z.shiftr sum 16 + Z.land sum 0xFFFF) in
  let sum := u32 (sum + Z.shiftr sum 16) in
  let result := u16 (u32 (Z.lnot sum)) in
  Some result.

(** ** The checksum as the design document words it

    Sum the 16-bit words into a 32-bit accumulator, add an odd trailing
    byte as a word whose other eight bits are zero, fold the high half
    into the low half twice, complement. *)

Fixpoint words16 (b : list byte) : list Z :=
  match b with
  | b0 :: b1 :: rest => load16 b0 b1 :: words16 rest
  | _ => []
  end.

Definition trailing_word (b : list byte) : Z :=
  if Nat.odd (length b) then Bytes.to_Z (List.last b x00) else 0.

Definition word_sum (b : list byte) : Z :=
  foldr Z.add 0 (words16 b) + trailing_word b.

Definition internet_checksum (b : list byte) : Z :=
  let acc := word_sum b mod 2 ^ 32 in
  let fold1 := acc / 2 ^ 16 + acc mod 2 ^ 16 in
  let fold2 := (fold1 + fold1 / 2 ^ 16) mod 2 ^ 16 in
  2 ^ 16 - 1 - fold2.

(** ** The program [main]

    The model starts where the socket has been created, configured and
    bound; each failure there ends the process before the first probe. *)

Variable w : World.

Local Open Scope prog_scope.

(** *** Calls into the environment *)

Definition clock_now : M Z :=
  fun s => Some (now w (clock_reads s), tick s).

(** [sendto(sockfd, send_buffer, PACKET_SIZE + sizeof(struct icmphdr), ...)] *)
Definition do_sendto : M Z :=
  fun s => Some (sendto w (sends s), record_send s).

(** [recvfrom(sockfd, recv_buffer, sizeof(recv_buffer), 0, NULL, NULL)] *)
Definition do_recvfrom : M Z :=
  fun s =>
    match recvfrom w (recvs s) with
    | None => Some (-1, record_recv s)
    | Some d => Some (Z.of_nat (length (take BUFFER_SIZE d)), deliver d s)
    end.

Definition print (l : Line) : M unit := modify (emit l).

Definition goto (p : Phase) : M unit := modify (set_pc p).

(** *** Accesses to the two buffers *)

Definition send_write8 (i : nat) (v : Z) : M unit :=
  m <- gets send_buffer ;; m' <- lift (write8 m i v) ;; modify (set_send_buffer m').

Definition send_write16 (i : nat) (v : Z) : M unit :=
  m <- gets send_buffer ;; m' <- lift (write16 m i v) ;; modify (set_send_buffer m').

Definition recv_read8 (i : nat) : M Z :=
  m <- gets recv_buffer ;; lift (read8 m i).

Definition recv_read16 (i : nat) : M Z :=
  m <- gets recv_buffer ;; lift (read16 m i).

Definition recv_write16 (i : nat) (v : Z) : M unit :=
  m <- gets recv_buffer ;; m' <- lift (write16 m i v) ;; modify (set_recv_buffer m').

(** *** Initialisation of the outgoing packet *)

(** [for (int i = sizeof(struct icmphdr); i < PACKET_SIZE + sizeof(struct icmphdr); i++)
      send_buffer[i] = i % 256;], with [n] iterations to go. *)
Fixpoint fill_payload (i n : nat) : M unit :=
  match n with
  | O => ret tt
  | S n' => send_write8 i (Z.of_nat i mod 256) ;; fill_payload (S i) n'
  end.

Definition initialise : M unit :=
  send_write8 Off.icmp_type ICMP_ECHO ;;
  send_write8 Off.icmp_code 0 ;;
  send_write16 Off.icmp_id (u16 (Z.land (getpid w) 0xFFFF)) ;;
  fill_payload sizeof_icmphdr PACKET_SIZE.

(** The locals of [main] as declared: [send_count = 10], [sequence = 0],
    two arrays that nothing has written yet. *)
Definition start_state : State :=
  mkState 10 0
          (map (uninit w) (seq 0 (PACKET_SIZE + sizeof_icmphdr)))
          (map (uninit w) (seq (PACKET_SIZE + sizeof_icmphdr) BUFFER_SIZE))
          0 0 0 [] [] LoopHead.

(** The state at the first test of the outer loop. *)
Definition init : option State := snd <$> initialise start_state.

(** *** One probe: build, stamp and send *)

(** The body of the outer loop up to the inner loop.  The one-second
    sleep in front of it changes nothing in the state. *)
Definition probe_send : M unit :=
  sequence_ <- gets sequence ;;
  send_write16 Off.icmp_sequence (u16 sequence_) ;;
  send_write16 Off.icmp_checksum 0 ;;
  buf <- gets send_buffer ;;
  checksum <- lift (calculate_checksum buf (Z.of_nat (PACKET_SIZE + sizeof_icmphdr))) ;;
  send_write16 Off.icmp_checksum checksum ;;
  start <- clock_now ;;
  r <- do_sendto ;;
  if r <=? 0 then print SendFailedLine ;; goto LoopHead
  else goto (WaitHead start).

(** *** Waiting for the reply *)

(** Leaving the inner loop with [received], then [if (!received)]. *)
Definition finish_wait (received : bool) : M unit :=
  (if negb received then print TimedOutLine else ret tt) ;; goto LoopHead.

(** The test [recv_icmp->type == ICMP_ECHOREPLY && recv_icmp->un.echo.id
    == (getpid() & 0xFFFF) && recv_icmp->un.echo.sequence == sequence],
    for an ICMP header at offset [icmp] of the receive buffer. *)
Definition candidate (icmp : nat) : M bool :=
  type <- recv_read8 (icmp + Off.icmp_type) ;;
  id <- recv_read16 (icmp + Off.icmp_id) ;;
  seq_ <- recv_read16 (icmp + Off.icmp_sequence) ;;
  sequence_ <- gets sequence ;;
  ret ((type =? ICMP_ECHOREPLY) && (id =? Z.land (getpid w) 0xFFFF)
       && (seq_ =? sequence_)).

(** Saving the checksum field, zeroing it, recomputing over [len] bytes
    from the ICMP header, restoring the field, and the comparison. *)
Definition validate_checksum (icmp : nat) (len : Z) : M bool :=
  original_checksum <- recv_read16 (icmp + Off.icmp_checksum) ;;
  recv_write16 (icmp + Off.icmp_checksum) 0 ;;
  rb <- gets recv_buffer ;;
  calculated_checksum <- lift (calculate_checksum (drop icmp rb) len) ;;
  recv_write16 (icmp + Off.icmp_checksum) original_checksum ;;
  ret (original_checksum =? calculated_checksum).

(** The [else] branch of [if (recv_len == -1)]: a datagram of [recv_len]
    bytes is in the receive buffer. *)
Definition handle_datagram (start duration recv_len : Z) : M unit :=
  vhl <- recv_read8 Off.ip_ihl ;;
  let icmp := Z.to_nat (Z.land vhl 0xF * 4) in
  is_candidate <- candidate icmp ;;
  if is_candidate then
    valid <- validate_checksum icmp (recv_len - Z.of_nat icmp) ;;
    if valid then
      icmp_seq <- recv_read16 (icmp + Off.icmp_sequence) ;;
      ttl <- recv_read8 Off.ip_ttl ;;
      print (EchoReplyLine icmp_seq ttl duration) ;;
      finish_wait true
    else goto (WaitHead start)
  else goto (WaitHead start).

(** One test of the inner loop and, when it holds, one run of its body. *)
Definition wait_iteration (start : Z) : M unit :=
  t <- clock_now ;;
  if Z.quot (t - start) 1000000 <? MAX_WAIT_TIME then
    recv_len <- do_recvfrom ;;
    end_ <- clock_now ;;
    let duration := end_ - start in
    if recv_len =? -1 then finish_wait false
    else handle_datagram start duration recv_len
  else finish_wait false.

(** *** Views of the two buffers, for the statements of Part II *)

(** The send buffer [sb] after the three assignments to the sequence
    and checksum fields for sequence number [sequence_]. *)
Definition stamp (sb : list byte) (sequence_ : Z) : option (list byte) :=
  m1 ← write16 sb Off.icmp_sequence (u16 sequence_);
  m2 ← write16 m1 Off.icmp_checksum 0;
  checksum ← calculate_checksum m2 (Z.of_nat (PACKET_SIZE + sizeof_icmphdr));
  write16 m2 Off.icmp_checksum checksum.

(** The fields of the datagram of [recv_len] bytes at the front of
    receive buffer [rb]. *)
Definition parse (rb : list byte) (recv_len : Z) : option Reply :=
  vhl ← read8 rb Off.ip_ihl;
  let icmp := Z.to_nat (Z.land vhl 0xF * 4) in
  type ← read8 rb (icmp + Off.icmp_type);
  id ← read16 rb (icmp + Off.icmp_id);
  seq_ ← read16 rb (icmp + Off.icmp_sequence);
  stored ← read16 rb (icmp + Off.icmp_checksum);
  ttl ← read8 rb Off.ip_ttl;
  zeroed ← write16 rb (icmp + Off.icmp_checksum) 0;
  recomputed ← calculate_checksum (drop icmp zeroed) (recv_len - Z.of_nat icmp);
  Some (mkReply icmp type id seq_ stored ttl recomputed).

(** The three header comparisons, and those together with the checksum
    comparison, for outstanding sequence number [sequence_]. *)
Definition is_candidate (sequence_ : Z) (r : Reply) : bool :=
  (reply_type r =? ICMP_ECHOREPLY) && (reply_id r =? Z.land (getpid w) 0xFFFF)
  && (reply_sequence r =? sequence_).

Definition is_match (sequence_ : Z) (r : Reply) : bool :=
  is_candidate sequence_ r && (reply_checksum r =? reply_recomputed r).

(** *** The control flow of [main] *)

Definition step (s : State) : option State :=
  match pc s with
  | LoopHead =>
      if 0 <? send_count s then snd <$> probe_send s
      else Some (set_pc Returned s)
  | WaitHead start => snd <$> wait_iteration start s
  | Returned => Some s
  end.

Fixpoint run (n : nat) (s : State) : option State :=
  match n with
  | O => Some s
  | S n' => s' ← step s; run n' s'
  end.

(** [main] from its first statement. *)
Definition main (n : nat) : option State := s ← init; run n s.

End Model.

(** The probes in flight at a control point: one while the program waits
    for a reply, none otherwise. *)
Definition in_flight (p : Phase) : nat :=
  match p with
  | WaitHead _ => 1
  | _ => 0
  end.

(** ** The transitions of [main], case by case *)

Section Transitions.

Variable host : endianness.
Variable w : World.

(** The test of the inner loop, [elapsed milliseconds < MAX_WAIT_TIME],
    at the clock reading that state [s] is about to take. *)
Definition budget_left (s : State) (start : Z) : bool :=
  Z.quot (now w (clock_reads s) - start) 1000000 <? MAX_WAIT_TIME.

(** The state in which a datagram [d] is handled: after the loop test,
    the read and the reading of [end]. *)
Definition received (d : list byte) (s : State) : State :=
  tick (deliver d (tick s)).

Inductive Transition (s : State) : State -> Prop :=
| T_exit :
    pc s = LoopHead -> send_count s <= 0 ->
    Transition s (set_pc Returned s)
| T_returned :
    pc s = Returned ->
    Transition s s
| T_send_failed (m : list byte) :
    pc s = LoopHead -> 0 < send_count s ->
    stamp host (send_buffer s) (sequence s) = Some m ->
    sendto w (sends s) <= 0 ->
    Transition s (set_pc LoopHead
                    (emit SendFailedLine (record_send (tick (set_send_buffer m s)))))
| T_sent (m : list byte) :
    pc s = LoopHead -> 0 < send_count s ->
    stamp host (send_buffer s) (sequence s) = Some m ->
    0 < sendto w (sends s) ->
    Transition s (set_pc (WaitHead (now w (clock_reads s)))
                    (record_send (tick (set_send_buffer m s))))
| T_budget_elapsed (start : Z) :
    pc s = WaitHead start -> budget_left s start = false ->
    Transition s (set_pc LoopHead (emit TimedOutLine (tick s)))
| T_read_failed (start : Z) :
    pc s = WaitHead start -> budget_left s start = true ->
    recvfrom w (recvs s) = None ->
    Transition s (set_pc LoopHead
                    (emit TimedOutLine (tick (record_recv (tick s)))))
| T_no_match (start : Z) (d : list byte) (r : Reply) :
    pc s = WaitHead start -> budget_left s start = true ->
    recvfrom w (recvs s) = Some d ->
    parse host (recv_buffer (received d s))
          (Z.of_nat (length (take BUFFER_SIZE d))) = Some r ->
    is_match w (sequence s) r = false ->
    Transition s (set_pc (WaitHead start) (received d s))
| T_match (start : Z) (d : list byte) (r : Reply) :
    pc s = WaitHead start -> budget_left s start = true ->
    recvfrom w (recvs s) = Some d ->
    parse host (recv_buffer (received d s))
          (Z.of_nat (length (take BUFFER_SIZE d))) = Some r ->
    is_match w (sequence s) r = true ->
    Transition s (set_pc LoopHead
                    (emit (EchoReplyLine (reply_sequence r) (reply_ttl r)
                             (now w (S (clock_reads s)) - start))
                          (received d s))).

(** The lines written so far belong to the probes sent so far, in order:
    the [i]-th line is the send-failure line exactly when the [i]-th call
    of [sendto] failed. *)
Definition lines_by_probe (s : State) : Prop :=
  forall (i : nat) (l : Line),
    output s !! i = Some l -> (l = SendFailedLine <-> sendto w i <= 0).

(** The fields of the outgoing packet that are set before the loop. *)
Definition fixed_fields (p : list byte) : Prop :=
  length p = (PACKET_SIZE + sizeof_icmphdr)%nat
  /\ read8 p Off.icmp_type = Some ICMP_ECHO
  /\ read8 p Off.icmp_code = Some 0
  /\ read16 host p Off.icmp_id = Some (Z.land (getpid w) 0xFFFF)
  /\ forall i : nat, (sizeof_icmphdr <= i < PACKET_SIZE + sizeof_icmphdr)%nat ->
                     read8 p i = Some (Z.of_nat i mod 256).

End Transitions.

(** ** Scenarios

    Concrete environments and datagrams on a little-endian host, used to
    run the model. *)

Module Scenario.

Definition host : endianness := LittleEndian.

(** An IPv4 header of 20 bytes (version 4, [ihl] 5, protocol ICMP) with
    the given TTL and source address. *)
Definition ip_header (ttl : Z) (src : list byte) : list byte :=
  [x45; x00; x00; x54; x00; x00; x00; x00; Bytes.of_Z ttl; x01; x00; x00]
    ++ src ++ [x0a; x00; x00; x02].

(** An ICMP message of the given type with checksum field [checksum]. *)
Definition icmp_message (type checksum id sequence_ : Z) (payload : list byte)
  : list byte :=
  [Bytes.of_Z type; x00; (store16 host checksum).1; (store16 host checksum).2;
   (store16 host id).1; (store16 host id).2;
   (store16 host sequence_).1; (store16 host sequence_).2] ++ payload.

(** An echo reply with the checksum a conforming peer computes. *)
Definition echo_reply (id sequence_ : Z) (payload : list byte) : list byte :=
  let zeroed := icmp_message ICMP_ECHOREPLY 0 id sequence_ payload in
  let checksum := default 0 (calculate_checksum host zeroed (Z.of_nat (length zeroed))) in
  icmp_message ICMP_ECHOREPLY checksum id sequence_ payload.

Definition payload : list byte :=
  map (fun i => Bytes.of_Z (Z.of_nat i mod 256)) (seq sizeof_icmphdr PACKET_SIZE).

(** Process 1234, a clock that advances one microsecond per reading, a
    network that takes every packet and returns nothing. *)
Definition quiet : World :=
  {| getpid := 1234;
     uninit := fun _ => x00;
     now := fun k => Z.of_nat k * 1000;
     sendto := fun _ => 64;
     recvfrom := fun _ => None |}.

(** As [quiet], with every [sendto] failing. *)
Definition unreachable : World :=
  {| getpid := 1234;
     uninit := fun _ => x00;
     now := fun k => Z.of_nat k * 1000;
     sendto := fun _ => -1;
     recvfrom := fun _ => None |}.

(** The reply to the first probe arrives with TTL 55 from 8.8.8.8, 50 ms
    after the send. *)
Definition prompt : World :=
  {| getpid := 1234;
     uninit := fun _ => x00;
     now := fun k => match k with
                     | O => 0 | 1%nat => 10000 | _ => 50000000
                     end;
     sendto := fun _ => 64;
     recvfrom := fun k => match k with
                          | O => Some (ip_header 55 [x08; x08; x08; x08]
                                         ++ echo_reply 1234 0 payload)
                          | _ => None
                          end |}.

(** Another process's reply is read 999 ms after the send; the loop test
    passes at 999.1 ms and the reply to the probe itself is read at 1500 ms. *)
Definition late : World :=
  {| getpid := 1234;
     uninit := fun _ => x00;
     now := fun k => match k with
                     | O => 0 | 1%nat => 10000 | 2%nat => 999000000
                     | 3%nat => 999100000 | _ => 1500000000
                     end;
     sendto := fun _ => 64;
     recvfrom := fun k => match k with
                          | O => Some (ip_header 55 [x08; x08; x08; x08]
                                         ++ echo_reply 4321 7 payload)
                          | 1%nat => Some (ip_header 55 [x08; x08; x08; x08]
                                             ++ echo_reply 1234 0 payload)
                          | _ => None
                          end |}.

(** The reply arrives 40 microseconds after the loop test, and between
the send and the receipt the wall clock is set back by one second. *)
Definition set_back : World :=
  {| getpid := 1234;
     uninit := fun _ => x00;
     now := fun k => match k with
                     | O => 5000000000 | 1%nat => 5000010000 | _ => 4000050000
                     end;
     sendto := fun _ => 64;
     recvfrom := fun k => match k with
                          | O => Some (ip_header 55 [x08; x08; x08; x08]
                                         ++ echo_reply 1234 0 payload)
                          | _ => None
                          end |}.

(** A reply of 32 bytes (four bytes of payload) with matching identifier
    and sequence and a correct checksum, sent by host 1.2.3.4. *)
Definition foreign : World :=
  {| getpid := 1234;
     uninit := fun _ => x00;
     now := fun k => Z.of_nat k * 1000;
     sendto := fun _ => 64;
     recvfrom := fun k => match k with
                          | O => Some (ip_header 64 [x01; x02; x03; x04]
                                         ++ echo_reply 1234 0 [xde; xad; xbe; xef])
                          | _ => None
                          end |}.

(** The reply to the first probe with one bit of its checksum flipped. *)
Definition corrupted : World :=
  {| getpid := 1234;
     uninit := fun _ => x00;
     now := fun k => Z.of_nat k * 1000;
     sendto := fun _ => 64;
     recvfrom := fun k =>
       match k with
       | O => Some (ip_header 55 [x08; x08; x08; x08]
                      ++ <[2%nat := x00]> (echo_reply 1234 0 payload))
       | _ => None
       end |}.

(** As [quiet] for the same process, with [0xAA] in all memory the
    program has not written, a clock that starts at one second and a
    network that refuses every second packet. *)
Definition dirty : World :=
  {| getpid := 1234;
     uninit := fun _ => xaa;
     now := fun k => 1000000000 + Z.of_nat k * 7;
     sendto := fun k => if Nat.even k then 64 else -1;
     recvfrom := fun _ => None |}.

(** The state after [n] steps of [main] in environment [w]. *)
Definition after (w : World) (n : nat) : State :=
  default (start_state w) (main host w n).

(** The fields of the first datagram of [w], read while the first probe
    is outstanding. *)
Definition first_reply (w : World) : Reply :=
  default (mkReply 0 0 0 0 0 0 0)
          (d ← recvfrom w 0;
           parse host (recv_buffer (received d (after w 1)))
                 (Z.of_nat (length (take BUFFER_SIZE d)))).

End Scenario.

(** * Part II: properties *)

(** ** Bytes and words *)

Lemma to_Z_range (b : byte) : 0 <= Bytes.to_Z b < 256.
Proof.
  unfold Bytes.to_Z. pose proof (Byte.to_N_bounded b) as H.
  split; [apply N2Z.is_nonneg | lia].
Qed.

Lemma to_of_Z (z : Z) : Bytes.to_Z (Bytes.of_Z z) = z mod 256.
Proof.
  unfold Bytes.to_Z, Bytes.of_Z.
  pose proof (Z.mod_pos_bound z 256 eq_refl) as Hr.
  destruct (Byte.of_N (Z.to_N (z mod 256))) as [b|] eqn:E.
  - apply Byte.to_of_N in E. simpl. rewrite E. lia.
  - apply Byte.of_N_None_iff in E. lia.
Qed.

Lemma of_to_Z (b : byte) : Bytes.of_Z (Bytes.to_Z b) = b.
Proof.
  unfold Bytes.of_Z. pose proof (to_Z_range b) as Hr.
  rewrite Z.mod_small by lia. unfold Bytes.to_Z.
  rewrite N2Z.id, Byte.of_to_N. reflexivity.
Qed.

Lemma of_Z_mod (z : Z) : Bytes.of_Z (z mod 256) = Bytes.of_Z z.
Proof. unfold Bytes.of_Z. rewrite Zmod_mod. reflexivity. Qed.

Lemma u16_range z : 0 <= u16 z < 2 ^ 16.
Proof. apply Z.mod_pos_bound. lia. Qed.

Lemma u32_range z : 0 <= u32 z < 2 ^ 32.
Proof. apply Z.mod_pos_bound. lia. Qed.

Lemma u16_small z : 0 <= z < 2 ^ 16 -> u16 z = z.
Proof. apply Z.mod_small. Qed.

Lemma u32_small z : 0 <= z < 2 ^ 32 -> u32 z = z.
Proof. apply Z.mod_small. Qed.

(** Lists taken two elements at a time. *)
Lemma list_pair_ind {A} (P : list A -> Prop) :
  P [] -> (forall a, P [a]) -> (forall a b l, P l -> P (a :: b :: l)) ->
  forall l, P l.
Proof.
  intros Hnil Hone Hstep l.
  assert (H : P l /\ forall a, P (a :: l)); [| exact (proj1 H)].
  induction l as [| x l [IH1 IH2]]; split; auto.
Qed.

Section WordProperties.

Variable host : endianness.

Lemma load16_range b0 b1 : 0 <= load16 host b0 b1 < 2 ^ 16.
Proof.
  pose proof (to_Z_range b0). pose proof (to_Z_range b1).
  unfold load16. destruct host; lia.
Qed.

Lemma load16_store16 v :
  0 <= v < 2 ^ 16 -> load16 host (store16 host v).1 (store16 host v).2 = v.
Proof.
  intros Hv. unfold load16, store16.
  destruct host; simpl; rewrite !to_of_Z, Z.shiftr_div_pow2 by lia;
    change (2 ^ 8) with 256;
    rewrite (Z.mod_small (v / 256)) by
      (split; [apply Z.div_pos; lia | apply Z.div_lt_upper_bound; lia]);
    pose proof (Z.div_mod v 256); lia.
Qed.

Lemma store16_load16 b0 b1 : store16 host (load16 host b0 b1) = (b0, b1).
Proof.
  pose proof (to_Z_range b0). pose proof (to_Z_range b1).
  unfold load16, store16.
  destruct host; rewrite Z.shiftr_div_pow2 by lia; change (2 ^ 8) with 256.
  - assert (E1 : (Bytes.to_Z b0 + 256 * Bytes.to_Z b1) / 256 = Bytes.to_Z b1)
      by (Z.div_mod_to_equations; lia).
    assert (E2 : (Bytes.to_Z b0 + 256 * Bytes.to_Z b1) mod 256 = Bytes.to_Z b0)
      by (Z.div_mod_to_equations; lia).
    rewrite E1, <- of_Z_mod, E2, !of_to_Z. reflexivity.
  - assert (E1 : (256 * Bytes.to_Z b0 + Bytes.to_Z b1) / 256 = Bytes.to_Z b0)
      by (Z.div_mod_to_equations; lia).
    assert (E2 : (256 * Bytes.to_Z b0 + Bytes.to_Z b1) mod 256 = Bytes.to_Z b1)
      by (Z.div_mod_to_equations; lia).
    rewrite E1, <- (of_Z_mod (_ + _)), E2, !of_to_Z. reflexivity.
Qed.

End WordProperties.

(** ** The checksum routine *)

(** The two folds and the complement, in arithmetic. *)
Lemma fold_complement (acc : Z) :
  0 <= acc < 2 ^ 32 ->
  let sum1 := u32 (Z.shiftr acc 16 + Z.land acc 0xFFFF) in
  let sum2 := u32 (sum1 + Z.shiftr sum1 16) in
  let fold1 := acc / 2 ^ 16 + acc mod 2 ^ 16 in
  u16 (u32 (Z.lnot sum2)) = 2 ^ 16 - 1 - (fold1 + fold1 / 2 ^ 16) mod 2 ^ 16.
Proof.
  intros Hacc sum1 sum2 fold1.
  assert (E1 : sum1 = fold1).
  { unfold sum1, fold1. change 0xFFFF with (Z.ones 16).
    rewrite Z.land_ones, Z.shiftr_div_pow2 by lia.
    apply u32_small. Z.div_mod_to_equations. lia. }
  assert (Hf : 0 <= fold1 < 2 ^ 17) by (unfold fold1; Z.div_mod_to_equations; lia).
  assert (E2 : sum2 = fold1 + fold1 / 2 ^ 16).
  { unfold sum2. rewrite E1, Z.shiftr_div_pow2 by lia.
    apply u32_small. Z.div_mod_to_equations. lia. }
  rewrite E2. unfold Z.lnot, u16, u32.
  set (s := fold1 + fold1 / 2 ^ 16).
  assert (Hs : 0 <= s < 2 ^ 18) by (unfold s; Z.div_mod_to_equations; lia).
  replace (Z.pred (- s)) with (2 ^ 32 - 1 - s + (-1) * 2 ^ 32) by lia.
  rewrite Z.mod_add, (Z.mod_small (2 ^ 32 - 1 - s)) by lia.
  Z.div_mod_to_equations. lia.
Qed.

Section ChecksumProperties.

Variable host : endianness.

Lemma words16_cons2 b0 b1 (l : list byte) :
  words16 host (b0 :: b1 :: l) = load16 host b0 b1 :: words16 host l.
Proof. reflexivity. Qed.

(** The word loop over a whole buffer: what it leaves for the tail test
    and what it has summed. *)
Lemma checksum_words_exact (b : list byte) :
  forall sum, u32 sum = sum ->
  checksum_words host b (Z.of_nat (length b)) sum =
    Some (if Nat.odd (length b) then [List.last b x00] else [],
          if Nat.odd (length b) then 1 else 0,
          u32 (sum + foldr Z.add 0 (words16 host b))).
Proof.
  induction b as [| a | b0 b1 l IH] using list_pair_ind; intros sum Hsum.
  - simpl. rewrite Z.add_0_r, Hsum. reflexivity.
  - simpl. rewrite Z.add_0_r, Hsum. reflexivity.
  - cbn [checksum_words].
    replace (1 <? Z.of_nat (length (b0 :: b1 :: l))) with true
      by (symmetry; apply Z.ltb_lt; simpl length; lia).
    replace (Z.of_nat (length (b0 :: b1 :: l)) - 2) with (Z.of_nat (length l))
      by (simpl length; lia).
    rewrite IH by (unfold u32; apply Zmod_mod).
    rewrite words16_cons2. cbn [foldr].
    change (length (b0 :: b1 :: l)) with (S (S (length l))).
    rewrite Nat.odd_succ_succ.
    assert (Hsum' : u32 (u32 (sum + load16 host b0 b1) + foldr Z.add 0 (words16 host l))
                    = u32 (sum + (load16 host b0 b1 + foldr Z.add 0 (words16 host l)))).
    { unfold u32. rewrite Zplus_mod_idemp_l. f_equal. lia. }
    rewrite Hsum'.
    destruct l as [| c l']; [reflexivity |]. reflexivity.
Qed.

Lemma internet_checksum_range (b : list byte) :
  0 <= internet_checksum host b < 2 ^ 16.
Proof.
  unfold internet_checksum.
  match goal with |- context [?x mod 2 ^ 16] =>
    pose proof (Z.mod_pos_bound x (2 ^ 16) eq_refl) end.
  cbv zeta. lia.
Qed.

(** C1.  For every byte buffer, of any length, [calculate_checksum] run
    over the whole buffer returns a value, and that value is the Internet
    checksum as the design document words it: the 16-bit words summed in a
    32-bit accumulator, an odd trailing byte added as one more word with
    eight zero bits, the high half folded into the low half twice, and
    the 16-bit complement taken.  It is a function of the bytes alone and
    has no failing case. *)
Theorem calculate_checksum_internet_checksum (b : list byte) :
  calculate_checksum host b (Z.of_nat (length b)) = Some (internet_checksum host b)
  /\ 0 <= internet_checksum host b < 2 ^ 16.
Proof.
  split; [| apply internet_checksum_range].
  unfold calculate_checksum.
  rewrite checksum_words_exact by reflexivity.
  cbn [mbind option_bind]. unfold internet_checksum, word_sum, trailing_word.
  rewrite Z.add_0_l.
  destruct (Nat.odd (length b)) eqn:Hodd.
  - cbn [Z.eqb Pos.eqb mbind option_bind]. f_equal.
    rewrite fold_complement by apply u32_range.
    unfold u32. rewrite Zplus_mod_idemp_l. reflexivity.
  - cbn [Z.eqb mbind option_bind]. f_equal.
    rewrite fold_complement by apply u32_range.
    unfold u32. rewrite Z.add_0_r. reflexivity.
Qed.

(** On a little-endian host the tail byte enters the sum as the word it
forms with a zero byte after it in memory. *)
Lemma trailing_byte_little_endian (c : byte) :
  load16 LittleEndian c x00 = Bytes.to_Z c.
Proof. unfold load16. change (Bytes.to_Z x00) with 0. lia. Qed.

Lemma words16_sum_bound (b : list byte) :
  0 <= 2 * foldr Z.add 0 (words16 host b) <= 65535 * Z.of_nat (length b).
Proof.
  induction b as [| a | b0 b1 l IH] using list_pair_ind.
  - cbn. lia.
  - cbn. lia.
  - rewrite words16_cons2. cbn [foldr length].
    pose proof (load16_range host b0 b1). lia.
Qed.

Lemma word_sum_bound (b : list byte) :
  0 <= 2 * word_sum host b <= 65535 * Z.of_nat (length b) + 510.
Proof.
  unfold word_sum, trailing_word. pose proof (words16_sum_bound b).
  pose proof (to_Z_range (List.last b x00)).
  destruct (Nat.odd (length b)); lia.
Qed.

(** While the 32-bit accumulator cannot overflow, that is for every buffer
of at most 128 KiB, the result is the ones'-complement sum of RFC 1071: it
is the 16-bit value that added to the sum of the words gives a multiple of
[0xFFFF], and it is [0xFFFF] only when all words are zero. *)
Lemma internet_checksum_ones_complement (b : list byte) :
  Z.of_nat (length b) <= 131072 ->
  (word_sum host b + internet_checksum host b) mod 65535 = 0
  /\ (internet_checksum host b = 65535 -> word_sum host b = 0).
Proof.
  intros Hlen. pose proof (word_sum_bound b) as Hsum.
  unfold internet_checksum. cbv zeta.
  rewrite (Z.mod_small (word_sum host b) (2 ^ 32)) by lia.
  set (S := word_sum host b) in *.
  change (2 ^ 16) with 65536.
  split; [| intros H0]; Z.div_mod_to_equations; lia.
Qed.

End ChecksumProperties.

(** ** Array accesses *)

Lemma read8_lt (m : list byte) (i : nat) :
  (i < length m)%nat -> exists v, read8 m i = Some v /\ 0 <= v < 256.
Proof.
  intros Hi. destruct (lookup_lt_is_Some_2 m i Hi) as [b Hb].
  exists (Bytes.to_Z b). unfold read8. rewrite Hb. split; [reflexivity | apply to_Z_range].
Qed.

Lemma write8_lt (m : list byte) (i : nat) (v : Z) :
  (i < length m)%nat -> write8 m i v = Some (<[i := Bytes.of_Z v]> m).
Proof. intros Hi. unfold write8. destruct (decide _); [reflexivity | lia]. Qed.

Lemma write8_inv (m m' : list byte) (i : nat) (v : Z) :
  write8 m i v = Some m' -> (i < length m)%nat /\ m' = <[i := Bytes.of_Z v]> m.
Proof. unfold write8. destruct (decide _); intros [= <-]; auto. Qed.

Section AccessProperties.

Variable host : endianness.

Lemma read16_lt (m : list byte) (i : nat) :
  (S i < length m)%nat -> exists v, read16 host m i = Some v /\ 0 <= v < 2 ^ 16.
Proof.
  intros Hi.
  destruct (lookup_lt_is_Some_2 m i ltac:(lia)) as [b0 Hb0].
  destruct (lookup_lt_is_Some_2 m (S i) Hi) as [b1 Hb1].
  exists (load16 host b0 b1). unfold read16. rewrite Hb0, Hb1.
  split; [reflexivity | apply load16_range].
Qed.

Lemma read16_inv (m : list byte) (i : nat) (v : Z) :
  read16 host m i = Some v ->
  exists b0 b1, m !! i = Some b0 /\ m !! S i = Some b1 /\ v = load16 host b0 b1.
Proof.
  unfold read16. destruct (m !! i) as [b0|]; [| discriminate].
  destruct (m !! S i) as [b1|]; [| discriminate].
  intros [= <-]. eauto.
Qed.

Lemma write16_lt (m : list byte) (i : nat) (v : Z) :
  (S i < length m)%nat ->
  write16 host m i v
  = Some (<[S i := (store16 host v).2]> (<[i := (store16 host v).1]> m)).
Proof. intros Hi. unfold write16. destruct (decide _); [reflexivity | lia]. Qed.

Lemma write16_inv (m m' : list byte) (i : nat) (v : Z) :
  write16 host m i v = Some m' ->
  (S i < length m)%nat
  /\ m' = <[S i := (store16 host v).2]> (<[i := (store16 host v).1]> m).
Proof. unfold write16. destruct (decide _); intros [= <-]; auto. Qed.

Lemma write16_length (m m' : list byte) (i : nat) (v : Z) :
  write16 host m i v = Some m' -> length m' = length m.
Proof. intros [_ ->]%write16_inv. rewrite !length_insert. reflexivity. Qed.

Lemma write16_lookup_ne (m m' : list byte) (i j : nat) (v : Z) :
  write16 host m i v = Some m' -> j <> i -> j <> S i -> m' !! j = m !! j.
Proof.
  intros [_ ->]%write16_inv Hi HSi.
  rewrite !list_lookup_insert_ne by congruence. reflexivity.
Qed.

Lemma read16_write16 (m m' : list byte) (i : nat) (v : Z) :
  write16 host m i v = Some m' -> 0 <= v < 2 ^ 16 -> read16 host m' i = Some v.
Proof.
  intros [Hi ->]%write16_inv Hv. unfold read16.
  rewrite (list_lookup_insert_ne _ (S i) i) by lia.
  rewrite (list_lookup_insert_eq m i) by lia.
  rewrite list_lookup_insert_eq by (rewrite length_insert; lia).
  cbn [mbind option_bind]. rewrite load16_store16 by exact Hv. reflexivity.
Qed.

(** Writing back the value that was read undoes an overwrite. *)
Lemma write16_restore (m m0 : list byte) (i : nat) (v x : Z) :
  read16 host m i = Some v -> write16 host m i x = Some m0 ->
  write16 host m0 i v = Some m.
Proof.
  intros (b0 & b1 & Hb0 & Hb1 & ->)%read16_inv [Hi ->]%write16_inv.
  rewrite write16_lt by (rewrite !length_insert; lia).
  rewrite store16_load16. cbn [fst snd]. f_equal.
  rewrite (list_insert_insert_ne _ i (S i)) by lia.
  rewrite !list_insert_insert_eq.
  rewrite (list_insert_id m i b0) by exact Hb0.
  apply list_insert_id. exact Hb1.
Qed.

Lemma read8_write16_ne (m m' : list byte) (i j : nat) (v : Z) :
  write16 host m i v = Some m' -> j <> i -> j <> S i -> read8 m' j = read8 m j.
Proof.
  intros Hw Hi HSi. unfold read8. rewrite (write16_lookup_ne _ _ _ _ _ Hw) by assumption.
  reflexivity.
Qed.

Lemma read16_write16_ne (m m' : list byte) (i j : nat) (v : Z) :
  write16 host m i v = Some m' -> (S j < i \/ S i < j)%nat ->
  read16 host m' j = read16 host m j.
Proof.
  intros Hw Hij. unfold read16.
  rewrite !(write16_lookup_ne _ _ _ _ _ Hw) by lia. reflexivity.
Qed.

End AccessProperties.

(** ** The checksum routine on part of a buffer *)

Section ChecksumDefined.

Variable host : endianness.

Lemma checksum_words_defined (b : list byte) :
  forall len sum, len <= Z.of_nat (length b) ->
  exists rest r s, checksum_words host b len sum = Some (rest, r, s)
                   /\ (r = 1 -> rest <> []).
Proof.
  induction b as [| a | b0 b1 l IH] using list_pair_ind; intros len sum Hlen;
    cbn [checksum_words]; destruct (1 <? len) eqn:Hlt;
    try (apply Z.ltb_lt in Hlt; simpl length in Hlen);
    try (apply Z.ltb_ge in Hlt).
  - lia.
  - do 3 eexists. split; [reflexivity | simpl in Hlen; lia].
  - lia.
  - do 3 eexists. split; [reflexivity | discriminate].
  - apply IH. lia.
  - do 3 eexists. split; [reflexivity | discriminate].
Qed.

(** No read leaves the buffer when [len] does not exceed its size. *)
Lemma calculate_checksum_defined (b : list byte) (len : Z) :
  len <= Z.of_nat (length b) ->
  exists c, calculate_checksum host b len = Some c /\ 0 <= c < 2 ^ 16.
Proof.
  intros Hlen. unfold calculate_checksum.
  destruct (checksum_words_defined b len 0 Hlen) as (rest & r & s & -> & Hrest).
  cbn [mbind option_bind].
  destruct (r =? 1) eqn:Hr.
  - apply Z.eqb_eq in Hr. destruct rest as [| c rest]; [exact (False_ind _ (Hrest Hr eq_refl)) |].
    cbn [mbind option_bind]. eexists. split; [reflexivity | apply u16_range].
  - cbn [mbind option_bind]. eexists. split; [reflexivity | apply u16_range].
Qed.

End ChecksumDefined.

(** ** The program *)

(** Inversion of one step of an option-monad chain in hypothesis [H]. *)
Tactic Notation "option_bind_inv" hyp(H) ident(x) ident(E) :=
  match type of H with
  | mbind _ ?o = Some _ =>
      destruct o as [x|] eqn:E; [cbn [mbind option_bind] in H | discriminate H]
  end.

(** Unfolding of the state monad. *)
Ltac unfold_prog :=
  cbv beta iota delta
    [bind ret gets lift modify goto print finish_wait
     recv_read8 recv_read16 recv_write16 send_write8 send_write16
     clock_now do_sendto do_recvfrom].

Lemma set_recv_buffer_id (s : State) : set_recv_buffer (recv_buffer s) s = s.
Proof. destruct s. reflexivity. Qed.

Lemma set_recv_buffer_twice (m m' : list byte) (s : State) :
  set_recv_buffer m (set_recv_buffer m' s) = set_recv_buffer m s.
Proof. reflexivity. Qed.

Section ProgramProperties.

Variable host : endianness.
Variable w : World.

Lemma icmp_offset_bound (vhl : Z) :
  0 <= vhl -> (Z.to_nat (Z.land vhl 0xF * 4) <= 60)%nat.
Proof.
  intros Hv. change 0xF with (Z.ones 4). rewrite Z.land_ones by lia.
  pose proof (Z.mod_pos_bound vhl (2 ^ 4) eq_refl). lia.
Qed.

(** Every datagram that fits the receive buffer has its fields. *)
Lemma parse_defined (rb : list byte) (recv_len : Z) :
  length rb = BUFFER_SIZE -> recv_len <= Z.of_nat BUFFER_SIZE ->
  exists r, parse host rb recv_len = Some r.
Proof.
  unfold BUFFER_SIZE. intros Hrb Hlen. unfold parse.
  destruct (read8_lt rb Off.ip_ihl) as (vhl & -> & Hvhl);
    [unfold Off.ip_ihl; lia |].
  cbn [mbind option_bind].
  pose proof (icmp_offset_bound vhl (proj1 Hvhl)) as Hoff.
  set (icmp := Z.to_nat (Z.land vhl 15 * 4)) in *.
  destruct (read8_lt rb (icmp + Off.icmp_type)) as (type & -> & _);
    [unfold Off.icmp_type; lia |].
  destruct (read16_lt host rb (icmp + Off.icmp_id)) as (id & -> & _);
    [unfold Off.icmp_id; lia |].
  destruct (read16_lt host rb (icmp + Off.icmp_sequence)) as (sq & -> & _);
    [unfold Off.icmp_sequence; lia |].
  destruct (read16_lt host rb (icmp + Off.icmp_checksum)) as (stored & -> & _);
    [unfold Off.icmp_checksum; lia |].
  destruct (read8_lt rb Off.ip_ttl) as (ttl & -> & _);
    [unfold Off.ip_ttl; lia |].
  cbn [mbind option_bind].
  rewrite write16_lt by (unfold Off.icmp_checksum; lia).
  cbn [mbind option_bind].
  match goal with |- context [calculate_checksum host ?b ?l] =>
    destruct (calculate_checksum_defined host b l) as (c & -> & _) end.
  { rewrite length_drop, !length_insert. lia. }
  cbn [mbind option_bind]. eauto.
Qed.

Lemma validate_checksum_eq (s : State) (icmp : nat) (len stored calc : Z)
      (zeroed : list byte) :
  read16 host (recv_buffer s) (icmp + Off.icmp_checksum) = Some stored ->
  write16 host (recv_buffer s) (icmp + Off.icmp_checksum) 0 = Some zeroed ->
  calculate_checksum host (drop icmp zeroed) len = Some calc ->
  validate_checksum host icmp len s = Some (stored =? calc, s).
Proof.
  intros Hstored Hzero Hcalc. unfold validate_checksum. unfold_prog.
  rewrite Hstored. cbv beta iota. rewrite Hzero. cbv beta iota.
  cbn [recv_buffer set_recv_buffer]. rewrite Hcalc. cbv beta iota.
  cbn [recv_buffer set_recv_buffer].
  rewrite (write16_restore _ _ _ _ _ _ Hstored Hzero). cbv beta iota.
  rewrite set_recv_buffer_twice, set_recv_buffer_id. reflexivity.
Qed.

Lemma candidate_eq (s : State) (recv_len : Z) (r : Reply) :
  parse host (recv_buffer s) recv_len = Some r ->
  candidate host w (reply_icmp r) s = Some (is_candidate w (sequence s) r, s).
Proof.
  intros Hp. unfold parse in Hp.
  option_bind_inv Hp vhl Evhl. option_bind_inv Hp type Etype.
  option_bind_inv Hp idv Eid. option_bind_inv Hp sq Esq.
  option_bind_inv Hp stored Estored. option_bind_inv Hp ttl Ettl.
  option_bind_inv Hp zeroed Ezeroed. option_bind_inv Hp calc Ecalc.
  injection Hp as <-. cbn [reply_icmp].
  unfold candidate, is_candidate. unfold_prog.
  rewrite Etype. cbv beta iota. rewrite Eid. cbv beta iota.
  rewrite Esq. reflexivity.
Qed.

(** What the program does with a datagram, by its fields. *)
Lemma handle_datagram_parse (s : State) (start duration recv_len : Z) (r : Reply) :
  parse host (recv_buffer s) recv_len = Some r ->
  handle_datagram host w start duration recv_len s
  = Some (tt, if is_match w (sequence s) r
              then set_pc LoopHead
                     (emit (EchoReplyLine (reply_sequence r) (reply_ttl r) duration) s)
              else set_pc (WaitHead start) s).
Proof.
  intros Hp. pose proof (candidate_eq s recv_len r Hp) as Hcand.
  unfold parse in Hp.
  option_bind_inv Hp vhl Evhl. option_bind_inv Hp type Etype.
  option_bind_inv Hp idv Eid. option_bind_inv Hp sq Esq.
  option_bind_inv Hp stored Estored. option_bind_inv Hp ttl Ettl.
  option_bind_inv Hp zeroed Ezeroed. option_bind_inv Hp calc Ecalc.
  injection Hp as <-. cbn [reply_icmp] in Hcand.
  unfold handle_datagram, is_match.
  unfold bind at 1. unfold recv_read8 at 1. unfold bind at 1, gets at 1, lift at 1.
  rewrite Evhl. unfold bind at 1. rewrite Hcand.
  cbn [reply_checksum reply_recomputed reply_sequence reply_ttl].
  destruct (is_candidate w (sequence s) _) eqn:Hc; cbn [andb]; [| reflexivity].
  unfold bind at 1.
  rewrite (validate_checksum_eq s _ _ stored calc zeroed Estored Ezeroed Ecalc).
  destruct (stored =? calc); [| reflexivity].
  unfold_prog. rewrite Esq. cbv beta iota. rewrite Ettl. reflexivity.
Qed.

(** *** Stamping the outgoing packet *)

Lemma stamp_defined (sb : list byte) (sq : Z) :
  length sb = (PACKET_SIZE + sizeof_icmphdr)%nat ->
  exists m, stamp host sb sq = Some m.
Proof.
  unfold stamp, PACKET_SIZE, sizeof_icmphdr. intros Hsb.
  rewrite write16_lt by (unfold Off.icmp_sequence; lia).
  cbn [mbind option_bind].
  rewrite write16_lt by (rewrite !length_insert; unfold Off.icmp_checksum; lia).
  cbn [mbind option_bind].
  match goal with |- context [calculate_checksum host ?b ?l] =>
    destruct (calculate_checksum_defined host b l) as (c & -> & _) end.
  { rewrite !length_insert. lia. }
  cbn [mbind option_bind].
  rewrite write16_lt by (rewrite !length_insert; unfold Off.icmp_checksum; lia).
  eauto.
Qed.

(** Stamping rewrites the sequence and checksum fields and nothing else. *)
Lemma stamp_frame (sb m : list byte) (sq : Z) :
  stamp host sb sq = Some m ->
  length m = length sb
  /\ (forall i : nat, i <> 2%nat -> i <> 3%nat -> i <> 6%nat -> i <> 7%nat ->
                      m !! i = sb !! i)
  /\ read16 host m Off.icmp_sequence = Some (u16 sq).
Proof.
  unfold stamp. intros H.
  option_bind_inv H m1 E1. option_bind_inv H m2 E2. option_bind_inv H c Ec.
  split; [| split].
  - rewrite (write16_length _ _ _ _ _ H), (write16_length _ _ _ _ _ E2),
      (write16_length _ _ _ _ _ E1). reflexivity.
  - intros i H2 H3 H6 H7.
    rewrite (write16_lookup_ne _ _ _ _ _ _ H), (write16_lookup_ne _ _ _ _ _ _ E2),
      (write16_lookup_ne _ _ _ _ _ _ E1); unfold Off.icmp_sequence, Off.icmp_checksum;
      auto.
  - rewrite (read16_write16_ne _ _ _ _ _ _ H), (read16_write16_ne _ _ _ _ _ _ E2)
      by (unfold Off.icmp_sequence, Off.icmp_checksum; lia).
    apply (read16_write16 _ _ _ _ _ E1), u16_range.
Qed.

Lemma probe_send_eq (s : State) (m : list byte) :
  stamp host (send_buffer s) (sequence s) = Some m ->
  probe_send host w s
  = Some (tt, let s1 := record_send (tick (set_send_buffer m s)) in
              if sendto w (sends s) <=? 0
              then set_pc LoopHead (emit SendFailedLine s1)
              else set_pc (WaitHead (now w (clock_reads s))) s1).
Proof.
  unfold stamp. intros H.
  option_bind_inv H m1 E1. option_bind_inv H m2 E2. option_bind_inv H c Ec.
  unfold probe_send. unfold_prog.
  rewrite E1. cbv beta iota. cbn [send_buffer set_send_buffer].
  rewrite E2. cbv beta iota. cbn [send_buffer set_send_buffer].
  rewrite Ec. cbv beta iota. cbn [send_buffer set_send_buffer].
  rewrite H. cbv beta iota. cbv zeta.
  cbn [sends tick set_send_buffer clock_reads].
  destruct (sendto w (sends s) <=? 0); reflexivity.
Qed.

(** *** One round of the wait loop *)

Lemma wait_iteration_eq (s : State) (start : Z) :
  wait_iteration host w start s
  = if Z.quot (now w (clock_reads s) - start) 1000000 <? MAX_WAIT_TIME
    then match recvfrom w (recvs s) with
         | None =>
             Some (tt, set_pc LoopHead
                         (emit TimedOutLine (tick (record_recv (tick s)))))
         | Some d =>
             handle_datagram host w start (now w (S (clock_reads s)) - start)
               (Z.of_nat (length (take BUFFER_SIZE d))) (tick (deliver d (tick s)))
         end
    else Some (tt, set_pc LoopHead (emit TimedOutLine (tick s))).
Proof.
  unfold wait_iteration. unfold bind at 1. unfold clock_now at 1.
  destruct (_ <? MAX_WAIT_TIME); [| reflexivity].
  unfold bind at 1. unfold do_recvfrom. cbn [recvs tick].
  destruct (recvfrom w (recvs s)) as [d|].
  - unfold bind at 1. unfold clock_now at 1.
    replace (Z.of_nat (length (take BUFFER_SIZE d)) =? -1) with false
      by (symmetry; apply Z.eqb_neq; lia).
    reflexivity.
  - reflexivity.
Qed.

(** *** Steps *)

Lemma deliver_wf (d : list byte) (s : State) : wf s -> wf (deliver d s).
Proof.
  unfold wf, deliver. cbn [send_buffer recv_buffer record_recv set_recv_buffer].
  intros [Hs Hr]. split; [exact Hs |].
  rewrite length_app, length_drop, length_take, Hr. lia.
Qed.

(** Every step from a well-formed state is defined and is one of the
    transitions. *)
Lemma step_transition (s : State) :
  wf s -> exists s', step host w s = Some s' /\ Transition host w s s'.
Proof.
  intros Hwf. unfold step. destruct (pc s) as [| start |] eqn:Hpc.
  - destruct (0 <? send_count s) eqn:Hcount.
    + apply Z.ltb_lt in Hcount.
      destruct (stamp_defined (send_buffer s) (sequence s) (proj1 Hwf)) as [m Hm].
      rewrite (probe_send_eq s m Hm). cbv zeta. cbn [fmap option_fmap option_map snd].
      destruct (sendto w (sends s) <=? 0) eqn:Hsend.
      * apply Z.leb_le in Hsend. eexists. split; [reflexivity |].
        apply T_send_failed; assumption.
      * apply Z.leb_gt in Hsend. eexists. split; [reflexivity |].
        apply T_sent; assumption.
    + apply Z.ltb_ge in Hcount. eexists. split; [reflexivity |].
      apply T_exit; assumption.
  - rewrite wait_iteration_eq. fold (budget_left w s start).
    destruct (budget_left w s start) eqn:Hbudget.
    + destruct (recvfrom w (recvs s)) as [d|] eqn:Hrecv.
      * fold (received d s).
        assert (Hwf' : wf (received d s)) by (apply deliver_wf; exact Hwf).
        destruct (parse_defined (recv_buffer (received d s))
                    (Z.of_nat (length (take BUFFER_SIZE d)))) as [r Hr].
        { exact (proj2 Hwf'). }
        { rewrite length_take. lia. }
        rewrite (handle_datagram_parse _ _ _ _ r Hr).
        cbn [fmap option_fmap option_map snd].
        change (sequence (received d s)) with (sequence s).
        destruct (is_match w (sequence s) r) eqn:Hmatch.
        -- eexists. split; [reflexivity |].
           eapply T_match; eassumption.
        -- eexists. split; [reflexivity |].
           eapply T_no_match; eassumption.
      * eexists. split; [reflexivity |]. eapply T_read_failed; eassumption.
    + eexists. split; [reflexivity |]. eapply T_budget_elapsed; eassumption.
  - eexists. split; [reflexivity |]. apply T_returned; assumption.
Qed.

Lemma transition_wf (s s' : State) : wf s -> Transition host w s s' -> wf s'.
Proof.
  intros Hwf Ht. pose proof (deliver_wf) as Hd.
  destruct Ht as [| | m _ _ Hm _ | m _ _ Hm _ | | | start d r | start d r];
    try exact Hwf;
    try (destruct (stamp_frame _ _ _ Hm) as (Hlen & _);
         split; [cbn; rewrite Hlen; exact (proj1 Hwf) | exact (proj2 Hwf)]);
    try (apply (Hd d s Hwf)).
Qed.

(** *** Initialisation *)

Lemma initialise_buffers (rb : list byte) :
  initialise host w
    (mkState 10 0 (map (uninit w) (seq 0 (PACKET_SIZE + sizeof_icmphdr))) rb
             0 0 0 [] [] LoopHead)
  = Some (tt, mkState 10 0
                ([Bytes.of_Z ICMP_ECHO; Bytes.of_Z 0; uninit w 2; uninit w 3;
                  (store16 host (u16 (Z.land (getpid w) 0xFFFF))).1;
                  (store16 host (u16 (Z.land (getpid w) 0xFFFF))).2;
                  uninit w 6; uninit w 7]
                 ++ map (fun i => Bytes.of_Z (Z.of_nat i mod 256))
                        (seq sizeof_icmphdr PACKET_SIZE))
                rb 0 0 0 [] [] LoopHead).
Proof. reflexivity. Qed.

Lemma initialise_eq :
  initialise host w (start_state w)
  = Some (tt, set_send_buffer
                ([Bytes.of_Z ICMP_ECHO; Bytes.of_Z 0; uninit w 2; uninit w 3;
                  (store16 host (u16 (Z.land (getpid w) 0xFFFF))).1;
                  (store16 host (u16 (Z.land (getpid w) 0xFFFF))).2;
                  uninit w 6; uninit w 7]
                 ++ map (fun i => Bytes.of_Z (Z.of_nat i mod 256))
                        (seq sizeof_icmphdr PACKET_SIZE))
                (start_state w)).
Proof. apply initialise_buffers. Qed.

Lemma land_0xFFFF_range (z : Z) : 0 <= Z.land z 0xFFFF < 2 ^ 16.
Proof.
  change 0xFFFF with (Z.ones 16). rewrite Z.land_ones by lia.
  apply Z.mod_pos_bound. lia.
Qed.

(** The state at the first test of the outer loop. *)
Lemma init_spec :
  exists s0, init host w = Some s0 /\ wf s0
             /\ send_count s0 = 10 /\ sequence s0 = 0 /\ pc s0 = LoopHead
             /\ sent s0 = [] /\ output s0 = [] /\ clock_reads s0 = 0%nat
             /\ fixed_fields host w (send_buffer s0).
Proof.
  unfold init. rewrite initialise_eq. cbn [fmap option_fmap option_map snd].
  eexists. split; [reflexivity |].
  split; [split; reflexivity |].
  do 6 (split; [reflexivity |]).
  cbn [send_buffer set_send_buffer].
  split; [reflexivity |]. split; [reflexivity |]. split; [reflexivity |].
  split.
  - unfold read16, Off.icmp_id. cbn [lookup list_lookup app mbind option_bind].
    rewrite load16_store16 by apply u16_range.
    rewrite u16_small by apply land_0xFFFF_range. reflexivity.
  - intros i Hi. unfold sizeof_icmphdr, PACKET_SIZE in Hi.
    unfold read8.
    rewrite lookup_app_r by (cbn [length]; lia). cbn [length].
    rewrite list_lookup_fmap, lookup_seq_lt by (unfold PACKET_SIZE; lia).
    cbn [fmap option_fmap option_map]. unfold sizeof_icmphdr.
    rewrite to_of_Z, Zmod_mod. do 3 f_equal. lia.
Qed.

(** *** Runs *)

(** A property kept by every transition holds along every run, and every
    run from a well-formed state is defined. *)
Lemma run_invariant (P : State -> Prop) :
  (forall s s', wf s -> P s -> Transition host w s s' -> P s') ->
  forall n s, wf s -> P s ->
  exists s', run host w n s = Some s' /\ wf s' /\ P s'.
Proof.
  intros Hstep n. induction n as [| n IH]; intros s Hwf HP.
  - exists s. auto.
  - destruct (step_transition s Hwf) as (s1 & Hs1 & Ht).
    cbn [run]. rewrite Hs1. cbn [mbind option_bind].
    apply IH; [exact (transition_wf _ _ Hwf Ht) | exact (Hstep _ _ Hwf HP Ht)].
Qed.

Lemma main_invariant (P : State -> Prop) :
  (forall s0, init host w = Some s0 -> P s0) ->
  (forall s s', wf s -> P s -> Transition host w s s' -> P s') ->
  forall n, exists s, main host w n = Some s /\ wf s /\ P s.
Proof.
  intros Hinit Hstep n. destruct init_spec as (s0 & Hs0 & Hwf & _).
  unfold main. rewrite Hs0. cbn [mbind option_bind].
  apply run_invariant; auto.
Qed.

(** Runs, end to end. *)
Lemma init_sends (s0 : State) : init host w = Some s0 -> sends s0 = 0%nat.
Proof.
  unfold init. rewrite initialise_eq. cbn [fmap option_fmap option_map snd].
  intros [= <-]. reflexivity.
Qed.

Lemma run_add (n k : nat) (s : State) :
  run host w (n + k) s = s' ← run host w n s; run host w k s'.
Proof.
  revert s. induction n as [| n IH]; intros s; [reflexivity |].
  cbn [Nat.add run]. destruct (step host w s) as [s1|]; [| reflexivity].
  cbn [mbind option_bind]. apply IH.
Qed.

Lemma main_zero (s0 : State) : init host w = Some s0 -> main host w 0 = Some s0.
Proof. intros H. unfold main. rewrite H. reflexivity. Qed.

Lemma main_add (n k : nat) :
  main host w (n + k) = s ← main host w n; run host w k s.
Proof.
  unfold main. destruct (init host w) as [s0|]; [| reflexivity].
  cbn [mbind option_bind]. apply run_add.
Qed.

Lemma main_succ (n : nat) :
  main host w (S n) = s ← main host w n; step host w s.
Proof.
  replace (S n) with (n + 1)%nat by lia. rewrite main_add.
  destruct (main host w n) as [s|]; [| reflexivity].
  cbn [mbind option_bind run]. destruct (step host w s); reflexivity.
Qed.

(** The comparisons that make a match, as a proposition. *)
Lemma is_match_iff (sequence_ : Z) (r : Reply) :
  is_match w sequence_ r = true
  <-> reply_type r = ICMP_ECHOREPLY
      /\ reply_id r = Z.land (getpid w) 0xFFFF
      /\ reply_sequence r = sequence_
      /\ reply_checksum r = reply_recomputed r.
Proof.
  unfold is_match, is_candidate. rewrite !andb_true_iff, !Z.eqb_eq. tauto.
Qed.

(** *** What no transition changes *)

Lemma transition_counters (s s' : State) :
  Transition host w s s' ->
  send_count s' = send_count s /\ sequence s' = sequence s.
Proof. intros Ht. destruct Ht; split; reflexivity. Qed.

(** Between two steps the send buffer changes in the sequence and
    checksum fields at most. *)
Lemma transition_send_buffer (s s' : State) :
  Transition host w s s' ->
  length (send_buffer s') = length (send_buffer s)
  /\ forall i : nat, i <> 2%nat -> i <> 3%nat -> i <> 6%nat -> i <> 7%nat ->
                     send_buffer s' !! i = send_buffer s !! i.
Proof.
  intros Ht.
  destruct Ht as [| | m _ _ Hm _ | m _ _ Hm _ | | | |];
    try (split; [reflexivity | intros; reflexivity]);
    destruct (stamp_frame _ _ _ Hm) as (Hlen & Hframe & _);
    (split; [exact Hlen | exact Hframe]).
Qed.

(** A step hands at most one packet to [sendto]: the send buffer as the
    step leaves it, with the current sequence number in its field. *)
Lemma transition_sent (s s' : State) :
  wf s -> Transition host w s s' ->
  sent s' = sent s
  \/ (sent s' = sent s ++ [send_buffer s']
      /\ read16 host (send_buffer s') Off.icmp_sequence = Some (u16 (sequence s))).
Proof.
  intros Hwf Ht.
  destruct Ht as [| | m _ _ Hm _ | m _ _ Hm _ | | | |];
    try (left; reflexivity);
    right; destruct (stamp_frame _ _ _ Hm) as (Hlen & _ & Hseq);
    cbn [sent send_buffer set_pc emit record_send tick set_send_buffer];
    rewrite take_ge by (rewrite Hlen, (proj1 Hwf); lia); auto.
Qed.

Lemma fixed_fields_frame (sb m : list byte) :
  length m = length sb ->
  (forall i : nat, i <> 2%nat -> i <> 3%nat -> i <> 6%nat -> i <> 7%nat ->
                   m !! i = sb !! i) ->
  fixed_fields host w sb -> fixed_fields host w m.
Proof.
  intros Hlen Hframe (Hl & Htype & Hcode & Hid & Hpayload).
  unfold fixed_fields, read8, read16, Off.icmp_type, Off.icmp_code, Off.icmp_id in *.
  unfold sizeof_icmphdr, PACKET_SIZE in *.
  rewrite !Hframe by lia.
  repeat split; try assumption; try congruence.
  intros i Hi. rewrite Hframe by lia. apply Hpayload. exact Hi.
Qed.

End ProgramProperties.

(** ** The claims about the probe loop *)

Section LoopClaims.

Variable host : endianness.
Variable w : World.

(** C4.  The design document has the probe loop stop after a fixed number
    of probes (ten).  In the program [send_count] is set to 10 and tested
    by the loop, and no statement changes it: after any number of steps
    of [main], in any environment, the program is defined, [send_count]
    is still 10 and [main] has not returned. *)
Theorem main_never_returns (n : nat) :
  exists s, main host w n = Some s /\ send_count s = 10 /\ pc s <> Returned.
Proof.
  destruct (main_invariant host w
              (fun s => send_count s = 10 /\ pc s <> Returned)) with (n := n)
    as (s & Hs & _ & HP).
  - intros s0 Hs0. destruct (init_spec host w) as (s0' & Hs0' & _ & Hc & _ & Hpc & _).
    rewrite Hs0 in Hs0'. injection Hs0' as <-. rewrite Hpc. split; [exact Hc | discriminate].
  - intros s s' _ [Hc Hpc] Ht.
    destruct (transition_counters host w s s' Ht) as [Hc' _].
    split; [congruence |].
    destruct Ht; cbn [pc set_pc emit record_send tick set_send_buffer received
                      deliver record_recv set_recv_buffer];
      try discriminate; try lia; try assumption.
  - exists s. auto.
Qed.

(** C5.  The design document has the sequence number start at 0 and go up
    by one after every probe.  In the program [sequence] is set to 0 and
    copied into every packet, and no statement changes it: after any
    number of steps of [main], in any environment, [sequence] is still 0
    and every packet handed to [sendto] carries 0 in its sequence field. *)
Theorem sequence_never_advances (n : nat) :
  exists s, main host w n = Some s /\ sequence s = 0
            /\ Forall (fun p => read16 host p Off.icmp_sequence = Some 0) (sent s).
Proof.
  destruct (main_invariant host w
              (fun s => sequence s = 0
                        /\ Forall (fun p => read16 host p Off.icmp_sequence = Some 0)
                                  (sent s))) with (n := n)
    as (s & Hs & _ & HP).
  - intros s0 Hs0.
    destruct (init_spec host w) as (s0' & Hs0' & _ & _ & Hseq & _ & Hsent & _).
    rewrite Hs0 in Hs0'. injection Hs0' as <-. rewrite Hsent. auto.
  - intros s s' Hwf [Hseq Hall] Ht.
    destruct (transition_counters host w s s' Ht) as [_ Hseq'].
    split; [congruence |].
    destruct (transition_sent host w s s' Hwf Ht) as [-> | [-> Hfield]];
      [exact Hall |].
    apply Forall_app. split; [exact Hall |].
    constructor; [| constructor]. rewrite Hfield, Hseq. reflexivity.
  - exists s. auto.
Qed.

(** C10.  Take the state [s1] after any number of steps of [main] and
    the state [s2] any number of steps later.  Outside the sequence field
    (offsets 6 and 7) and the checksum field (offsets 2 and 3) the send
    buffer holds the same bytes in both, and every packet handed to
    [sendto] so far is 64 bytes long with type [ICMP_ECHO] (8), code 0,
    the process id masked to 16 bits as identifier, and [i mod 256] at
    every payload offset [i] from 8 to 63. *)
Theorem send_buffer_frame (n k : nat) :
  exists s1 s2,
    main host w n = Some s1 /\ run host w k s1 = Some s2
    /\ (forall i : nat, i <> 2%nat -> i <> 3%nat -> i <> 6%nat -> i <> 7%nat ->
                        send_buffer s2 !! i = send_buffer s1 !! i)
    /\ Forall (fixed_fields host w) (sent s2).
Proof.
  set (Q := fun s => fixed_fields host w (send_buffer s)
                     /\ Forall (fixed_fields host w) (sent s)).
  assert (HQ : forall s s', wf s -> Q s -> Transition host w s s' -> Q s').
  { intros s s' Hwf [Hbuf Hall] Ht.
    destruct (transition_send_buffer host w s s' Ht) as [Hlen Hframe].
    assert (Hbuf' : fixed_fields host w (send_buffer s'))
      by (apply (fixed_fields_frame host w (send_buffer s)); assumption).
    split; [exact Hbuf' |].
    destruct (transition_sent host w s s' Hwf Ht) as [-> | [-> _]];
      [exact Hall |].
    apply Forall_app. split; [exact Hall |]. constructor; [exact Hbuf' | constructor]. }
  destruct (main_invariant host w Q) with (n := n) as (s1 & Hs1 & Hwf1 & HQ1).
  - intros s0 Hs0.
    destruct (init_spec host w)
      as (s0' & Hs0' & _ & _ & _ & _ & Hsent & _ & _ & Hfixed).
    rewrite Hs0 in Hs0'. injection Hs0' as <-. split; [exact Hfixed |].
    rewrite Hsent. constructor.
  - exact HQ.
  - destruct (run_invariant host w
                (fun s => Q s
                          /\ forall i : nat, i <> 2%nat -> i <> 3%nat -> i <> 6%nat ->
                               i <> 7%nat ->
                               send_buffer s !! i = send_buffer s1 !! i))
      with (n := k) (s := s1) as (s2 & Hs2 & _ & [HQ2 Hframe]).
    + intros s s' Hwf [HQs Hfr] Ht. split; [exact (HQ s s' Hwf HQs Ht) |].
      intros i H2 H3 H6 H7.
      destruct (transition_send_buffer host w s s' Ht) as [_ Hstep].
      rewrite Hstep by assumption. apply Hfr; assumption.
    + exact Hwf1.
    + split; [exact HQ1 | reflexivity].
    + exists s1, s2. repeat split; try assumption. exact (proj2 HQ2).
Qed.

End LoopClaims.

(** ** The claims about checksum validation and the wait loop *)

Section WaitClaims.

Variable host : endianness.
Variable w : World.

Lemma calculate_checksum_range (b : list byte) (len c : Z) :
  calculate_checksum host b len = Some c -> 0 <= c < 2 ^ 16.
Proof.
  unfold calculate_checksum. intros H.
  option_bind_inv H x Ex. destruct x as [[buf r] sum]. cbn beta iota in H.
  option_bind_inv H sum' Esum. injection H as <-. apply u16_range.
Qed.

Lemma read16_app (pre m : list byte) (i : nat) :
  read16 host (pre ++ m) (length pre + i) = read16 host m i.
Proof.
  unfold read16.
  replace (S (length pre + i)) with (length pre + S i)%nat by lia.
  rewrite (lookup_app_r pre m (length pre + i)),
    (lookup_app_r pre m (length pre + S i)) by lia.
  replace (length pre + i - length pre)%nat with i by lia.
  replace (length pre + S i - length pre)%nat with (S i) by lia.
  reflexivity.
Qed.

Lemma write16_app (pre m m' : list byte) (i : nat) (v : Z) :
  write16 host m i v = Some m' ->
  write16 host (pre ++ m) (length pre + i) v = Some (pre ++ m').
Proof.
  intros [Hi ->]%write16_inv.
  rewrite write16_lt by (rewrite length_app; lia). f_equal.
  replace (S (length pre + i)) with (length pre + S i)%nat by lia.
  rewrite !insert_app_r. reflexivity.
Qed.

(** C2.  Take a buffer [B] whose checksum field is zero, compute its
    checksum [c] over [len] bytes and write [c] into the field, giving
    [B'].  Wherever [B'] lies in the receive buffer, the validation the
    program performs on a reply (save the field, zero it, recompute over
    [len] bytes, restore the field, compare) answers [true] and leaves the
    state as it was. *)
Theorem checksum_round_trip (B B' pre : list byte) (len c : Z) (s : State) :
  read16 host B Off.icmp_checksum = Some 0 ->
  calculate_checksum host B len = Some c ->
  write16 host B Off.icmp_checksum c = Some B' ->
  recv_buffer s = pre ++ B' ->
  validate_checksum host (length pre) len s = Some (true, s).
Proof.
  intros Hzero Hc Hw Hrb.
  pose proof (calculate_checksum_range B len c Hc) as Hrange.
  rewrite (validate_checksum_eq host s (length pre) len c c (pre ++ B)).
  - rewrite Z.eqb_refl. reflexivity.
  - rewrite Hrb, read16_app. exact (read16_write16 host B B' _ c Hw Hrange).
  - rewrite Hrb. apply write16_app.
    exact (write16_restore host B B' _ 0 c Hzero Hw).
  - rewrite drop_app_length. exact Hc.
Qed.

(** The three header comparisons, as a proposition. *)
Lemma is_candidate_iff (sequence_ : Z) (r : Reply) :
  is_candidate w sequence_ r = true
  <-> reply_type r = ICMP_ECHOREPLY
      /\ reply_id r = Z.land (getpid w) 0xFFFF
      /\ reply_sequence r = sequence_.
Proof.
  unfold is_candidate. rewrite !andb_true_iff, !Z.eqb_eq. tauto.
Qed.

(** C3.  Let the wait loop read a datagram [d] while [sequence s] is
    outstanding, and let [r] be its fields.  The step of [main] treats it
    as a candidate exactly when the ICMP type is [ICMP_ECHOREPLY], the
    identifier is the process id masked to 16 bits and the sequence field
    is the outstanding sequence number: the guard the program evaluates
    is true in that case and no other; when the three hold, the checksum
    comparison alone decides between the step that reports the reply and
    ends the wait and the step that goes on waiting; when one of the three
    fails, whichever it is and whatever the other fields and the checksum
    are, the step reports nothing and the wait goes on. *)
Theorem candidate_match_iff (s : State) (start : Z) (d : list byte) :
  wf s -> pc s = WaitHead start -> budget_left w s start = true ->
  recvfrom w (recvs s) = Some d ->
  exists r s',
    parse host (recv_buffer (received d s))
          (Z.of_nat (length (take BUFFER_SIZE d))) = Some r
    /\ step host w s = Some s'
    /\ candidate host w (reply_icmp r) (received d s)
       = Some (is_candidate w (sequence s) r, received d s)
    /\ (is_candidate w (sequence s) r = true
        <-> reply_type r = ICMP_ECHOREPLY
            /\ reply_id r = Z.land (getpid w) 0xFFFF
            /\ reply_sequence r = sequence s)
    /\ (reply_type r = ICMP_ECHOREPLY ->
        reply_id r = Z.land (getpid w) 0xFFFF ->
        reply_sequence r = sequence s ->
        (reply_checksum r = reply_recomputed r ->
         s' = set_pc LoopHead
                (emit (EchoReplyLine (reply_sequence r) (reply_ttl r)
                         (now w (S (clock_reads s)) - start))
                      (received d s)))
        /\ (reply_checksum r <> reply_recomputed r ->
            s' = set_pc (WaitHead start) (received d s)))
    /\ (reply_type r <> ICMP_ECHOREPLY
        \/ reply_id r <> Z.land (getpid w) 0xFFFF
        \/ reply_sequence r <> sequence s ->
        s' = set_pc (WaitHead start) (received d s)
        /\ pc s' = WaitHead start /\ output s' = output s)
    /\ (pc s' = LoopHead
        <-> reply_type r = ICMP_ECHOREPLY
            /\ reply_id r = Z.land (getpid w) 0xFFFF
            /\ reply_sequence r = sequence s
            /\ reply_checksum r = reply_recomputed r).
Proof.
  intros Hwf Hpc Hbudget Hrecv.
  destruct (step_transition host w s Hwf) as (s' & Hstep & Ht).
  destruct Ht as [| | | | start' Hpc' Hb' | start' Hpc' Hb' Hr'
                  | start' d' r Hpc' Hb' Hr' Hparse Hmatch
                  | start' d' r Hpc' Hb' Hr' Hparse Hmatch];
    try congruence;
    rewrite Hpc in Hpc'; injection Hpc' as <-;
    rewrite Hrecv in Hr'; injection Hr' as <-;
    exists r; eexists; (split; [exact Hparse |]); (split; [exact Hstep |]);
    (split; [exact (candidate_eq host w _ _ r Hparse) |]);
    (split; [apply is_candidate_iff |]).
  - (* the comparisons fail: the wait goes on *)
    assert (Hno : ~ (reply_type r = ICMP_ECHOREPLY
                     /\ reply_id r = Z.land (getpid w) 0xFFFF
                     /\ reply_sequence r = sequence s
                     /\ reply_checksum r = reply_recomputed r)).
    { intros H. apply is_match_iff in H. congruence. }
    split; [| split].
    + intros Htype Hid Hseq. split; [| reflexivity].
      intros Hsum. exfalso. apply Hno. auto.
    + intros _. split; [reflexivity |]. split; reflexivity.
    + cbn [pc set_pc]. split; [discriminate | intros H; exfalso; exact (Hno H)].
  - (* all four comparisons hold: the reply is reported *)
    apply is_match_iff in Hmatch as (Htype & Hid & Hseq & Hsum).
    split; [| split].
    + intros _ _ _. split; [reflexivity |].
      intros Hne. exfalso. exact (Hne Hsum).
    + intros [H | [H | H]]; exfalso; auto.
    + cbn [pc set_pc]. split; [auto | reflexivity].
Qed.

(** C7.  Let the wait loop read a datagram whose type, identifier and
    sequence match the outstanding probe and whose stored checksum
    differs from the one recomputed over the received ICMP bytes with the
    field zeroed.  The step reports nothing and stays in the wait loop of
    the same probe, with the same start time.  At the next loop test the
    program reads again if the budget is not used up, and otherwise
    leaves the loop and reports a timeout. *)
Theorem bad_checksum_rejected (s : State) (start : Z) (d : list byte) (r : Reply) :
  wf s -> pc s = WaitHead start -> budget_left w s start = true ->
  recvfrom w (recvs s) = Some d ->
  parse host (recv_buffer (received d s))
        (Z.of_nat (length (take BUFFER_SIZE d))) = Some r ->
  is_candidate w (sequence s) r = true ->
  reply_checksum r <> reply_recomputed r ->
  exists s' s'',
    step host w s = Some s'
    /\ pc s' = WaitHead start /\ output s' = output s
    /\ sequence s' = sequence s
    /\ step host w s' = Some s''
    /\ (budget_left w s' start = true -> recvs s'' = S (recvs s'))
    /\ (budget_left w s' start = false ->
        pc s'' = LoopHead /\ output s'' = output s ++ [TimedOutLine]).
Proof.
  intros Hwf Hpc Hbudget Hrecv Hparse Hcand Hsum.
  assert (Hmatch : is_match w (sequence s) r = false).
  { unfold is_match. rewrite Hcand. cbn [andb]. apply Z.eqb_neq. exact Hsum. }
  destruct (step_transition host w s Hwf) as (s' & Hstep & Ht).
  assert (Hs' : s' = set_pc (WaitHead start) (received d s)).
  { destruct Ht as [| | | | start' Hpc' Hb' | start' Hpc' Hb' Hr'
                    | start' d' r' Hpc' Hb' Hr' Hparse' Hmatch'
                    | start' d' r' Hpc' Hb' Hr' Hparse' Hmatch'];
      congruence. }
  assert (Hwf' : wf s') by exact (transition_wf host w s s' Hwf Ht).
  destruct (step_transition host w s' Hwf') as (s'' & Hstep' & Ht').
  exists s', s''. split; [exact Hstep |].
  split; [rewrite Hs'; reflexivity |]. split; [rewrite Hs'; reflexivity |].
  split; [rewrite Hs'; reflexivity |]. split; [exact Hstep' |].
  assert (Hpc2 : pc s' = WaitHead start) by (rewrite Hs'; reflexivity).
  assert (Hout : output s' = output s) by (rewrite Hs'; reflexivity).
  destruct Ht' as [| | | | start' Hpc' Hb' | start' Hpc' Hb' Hr'
                   | start' d' r' Hpc' Hb' Hr' Hparse' Hmatch'
                   | start' d' r' Hpc' Hb' Hr' Hparse' Hmatch'];
    try congruence;
    rewrite Hpc2 in Hpc'; injection Hpc' as <-;
    (split; [intros Hb | intros Hb]); try congruence; try reflexivity.
  split; [reflexivity |]. cbn [output set_pc emit tick]. rewrite Hout. reflexivity.
Qed.

(** C6 as the program has it.  In the wait loop a read that fails or
    times out ends the wait at once, whatever is left of the budget, and
    the probe is reported as timed out.  The loop goes round again only
    after a read that delivered a datagram, and a timeout is reported
    only when the budget has run out at a loop test or a read has
    failed. *)
Theorem read_failure_ends_wait (s : State) (start : Z) :
  wf s -> pc s = WaitHead start ->
  exists s',
    step host w s = Some s'
    /\ (budget_left w s start = true -> recvfrom w (recvs s) = None ->
        pc s' = LoopHead /\ output s' = output s ++ [TimedOutLine]
        /\ recvs s' = S (recvs s))
    /\ (pc s' <> LoopHead ->
        pc s' = WaitHead start /\ budget_left w s start = true
        /\ output s' = output s /\ recvs s' = S (recvs s)
        /\ exists d, recvfrom w (recvs s) = Some d)
    /\ (output s' = output s ++ [TimedOutLine] ->
        budget_left w s start = false \/ recvfrom w (recvs s) = None).
Proof.
  intros Hwf Hpc.
  destruct (step_transition host w s Hwf) as (s' & Hstep & Ht).
  exists s'. split; [exact Hstep |].
  destruct Ht as [| | | | start' Hpc' Hb' | start' Hpc' Hb' Hr'
                  | start' d' r' Hpc' Hb' Hr' Hparse' Hmatch'
                  | start' d' r' Hpc' Hb' Hr' Hparse' Hmatch'];
    try congruence;
    rewrite Hpc in Hpc'; injection Hpc' as <-.
  - split; [congruence |]. split; [| auto].
    intros Hne. exfalso. apply Hne. reflexivity.
  - split; [intros _ _; repeat split |]. split; [| auto].
    intros Hne. exfalso. apply Hne. reflexivity.
  - split; [congruence |]. split.
    + intros _. repeat split; try assumption. eauto.
    + cbn [output set_pc received tick deliver record_recv set_recv_buffer].
      intros Habs. apply (f_equal length) in Habs.
      rewrite length_app in Habs. cbn [length] in Habs. lia.
  - split; [congruence |]. split.
    + cbn [pc set_pc]. congruence.
    + cbn [output set_pc emit received tick deliver record_recv set_recv_buffer].
      intros Habs. apply app_inv_head in Habs. discriminate.
Qed.

End WaitClaims.

(** ** The claims about what is reported *)

(** *** Binary64 arithmetic stays finite on 64-bit counts *)

Lemma digits2_pos_bounds (p : positive) :
  2 ^ (Z.pos (digits2_pos p) - 1) <= Z.pos p < 2 ^ Z.pos (digits2_pos p).
Proof.
  induction p as [p IH | p IH |]; cbn [digits2_pos].
  - rewrite Pos2Z.inj_succ. replace (Z.succ (Z.pos (digits2_pos p)) - 1) with (Z.pos (digits2_pos p) - 1 + 1) by lia.
    rewrite Z.pow_succ_r by lia. rewrite Z.pow_add_r by lia. lia.
  - rewrite Pos2Z.inj_succ. replace (Z.succ (Z.pos (digits2_pos p)) - 1) with (Z.pos (digits2_pos p) - 1 + 1) by lia.
    rewrite Z.pow_succ_r by lia. rewrite Z.pow_add_r by lia. lia.
  - cbn. lia.
Qed.

Lemma Zdigits2_nonneg (m : Z) : 0 <= Zdigits2 m.
Proof. destruct m; cbn; lia. Qed.

(** A non-negative number below [2^k] has at most [k] binary digits. *)
Lemma Zdigits2_le (m k : Z) : 0 <= k -> 0 <= m < 2 ^ k -> Zdigits2 m <= k.
Proof.
  intros Hk Hm. destruct m as [| p | p]; cbn [Zdigits2]; [lia | | lia].
  pose proof (digits2_pos_bounds p) as [Hlo _].
  destruct (Z_lt_le_dec k (Z.pos (digits2_pos p))) as [Hlt | Hle]; [| exact Hle].
  exfalso. assert (2 ^ k <= 2 ^ (Z.pos (digits2_pos p) - 1)) by (apply Z.pow_le_mono_r; lia).
  lia.
Qed.

Lemma Zdigits2_lt (m : Z) : 0 <= m -> m < 2 ^ Zdigits2 m.
Proof.
  intros Hm. destruct m as [| p | p]; cbn [Zdigits2]; [cbn; lia | | lia].
  apply digits2_pos_bounds.
Qed.

Lemma shr_1_m (mrs : shr_record) :
  0 <= shr_m mrs -> shr_m (shr_1 mrs) = shr_m mrs / 2.
Proof.
  destruct mrs as [m r s]. cbn [shr_m]. intros Hm.
  destruct m as [| [p | p |] | p]; cbn [shr_1 shr_m]; try lia;
    Z.div_mod_to_equations; lia.
Qed.

Lemma iter_shr_1_m (n : positive) :
  forall mrs, 0 <= shr_m mrs ->
              shr_m (SpecFloat.iter_pos shr_1 n mrs) = shr_m mrs / 2 ^ Z.pos n.
Proof.
  induction n as [n IH | n IH |]; intros mrs Hm; cbn [SpecFloat.iter_pos].
  - assert (H1 : 0 <= shr_m (shr_1 mrs)) by (rewrite shr_1_m by lia; apply Z.div_pos; lia).
    assert (H2 : 0 <= shr_m (SpecFloat.iter_pos shr_1 n (shr_1 mrs)))
      by (rewrite IH by lia; apply Z.div_pos; lia).
    rewrite IH, IH, shr_1_m by lia.
    rewrite !Z.div_div by lia.
    f_equal. replace (Z.pos n~1) with (1 + Z.pos n + Z.pos n) by lia.
    rewrite !Z.pow_add_r by lia. change (2 ^ 1) with 2. lia.
  - assert (H2 : 0 <= shr_m (SpecFloat.iter_pos shr_1 n mrs))
      by (rewrite IH by lia; apply Z.div_pos; lia).
    rewrite IH, IH by lia. rewrite Z.div_div by lia.
    f_equal. replace (Z.pos n~0) with (Z.pos n + Z.pos n) by lia.
    rewrite Z.pow_add_r by lia. reflexivity.
  - rewrite shr_1_m by lia. reflexivity.
Qed.

Lemma shr_fexp_spec (m e : Z) (l : location) :
  0 <= m ->
  let '(mrs, e') := shr_fexp 53 1024 m e l in
  e' = Z.max e (fexp 53 1024 (Zdigits2 m + e))
  /\ shr_m mrs = m / 2 ^ (e' - e).
Proof.
  intros Hm. unfold shr_fexp, shr.
  assert (Hrec : shr_m (shr_record_of_loc m l) = m) by (destruct l as [| []]; reflexivity).
  destruct (fexp 53 1024 (Zdigits2 m + e) - e) as [| n | n] eqn:Hn.
  - split; [lia |]. rewrite Hrec, Z.sub_diag, Z.pow_0_r, Z.div_1_r. reflexivity.
  - split; [lia |]. rewrite iter_shr_1_m by lia. rewrite Hrec. f_equal. f_equal. lia.
  - split; [lia |]. rewrite Hrec, Z.sub_diag, Z.pow_0_r, Z.div_1_r. reflexivity.
Qed.

Lemma round_nearest_even_bounds (m : Z) (l : location) :
  m <= round_nearest_even m l <= m + 1.
Proof. destruct l as [| []]; cbn [round_nearest_even]; try destruct (Z.even m); lia. Qed.

(** Digits of a number shifted right, then possibly incremented. *)
Lemma digits_after_shift (m m1 e e' : Z) :
  0 <= m -> e' >= e -> 0 <= m1 <= m / 2 ^ (e' - e) + 1 ->
  Zdigits2 m1 + e' <= Z.max (Zdigits2 m + e) e' + 1.
Proof.
  intros Hm He Hm1.
  pose proof (Zdigits2_lt m Hm) as Hlt. pose proof (Zdigits2_nonneg m) as Hd.
  set (n := e' - e) in *. set (D := Zdigits2 m) in *.
  destruct (Z_le_gt_dec n D) as [Hn | Hn].
  - assert (m / 2 ^ n < 2 ^ (D - n)).
    { apply Z.div_lt_upper_bound; [lia |]. rewrite <- Z.pow_add_r by lia.
      replace (n + (D - n)) with D by lia. exact Hlt. }
    assert (Zdigits2 m1 <= D - n + 1).
    { apply Zdigits2_le; [lia |]. rewrite Z.pow_add_r by lia. lia. }
    lia.
  - assert (m / 2 ^ n = 0).
    { apply Z.div_small. split; [lia |]. 
      assert (2 ^ D <= 2 ^ n) by (apply Z.pow_le_mono_r; lia). lia. }
    assert (Zdigits2 m1 <= 1) by (apply Zdigits2_le; [lia | cbn; lia]).
    lia.
Qed.

Lemma digits_after_shift_exact (m e e' : Z) :
  0 <= m -> e' >= e ->
  Zdigits2 (m / 2 ^ (e' - e)) + e' <= Z.max (Zdigits2 m + e) e'.
Proof.
  intros Hm He.
  pose proof (Zdigits2_lt m Hm) as Hlt. pose proof (Zdigits2_nonneg m) as Hd.
  set (n := e' - e) in *. set (D := Zdigits2 m) in *.
  destruct (Z_le_gt_dec n D) as [Hn | Hn].
  - assert (m / 2 ^ n < 2 ^ (D - n)).
    { apply Z.div_lt_upper_bound; [lia |]. rewrite <- Z.pow_add_r by lia.
      replace (n + (D - n)) with D by lia. exact Hlt. }
    assert (0 <= m / 2 ^ n) by (apply Z.div_pos; lia).
    assert (Zdigits2 (m / 2 ^ n) <= D - n) by (apply Zdigits2_le; lia).
    lia.
  - assert (Hz : m / 2 ^ n = 0).
    { apply Z.div_small. split; [lia |].
      assert (2 ^ D <= 2 ^ n) by (apply Z.pow_le_mono_r; lia). lia. }
    rewrite Hz. cbn [Zdigits2]. lia.
Qed.

Lemma binary_round_aux_finite (s : bool) (m e : Z) (l : location) :
  0 <= m -> e <= 1024 - 53 -> Zdigits2 m + e + 1 <= 1024 ->
  match binary_round_aux 53 1024 s m e l with
  | S754_zero _ => True
  | S754_finite _ m' e' =>
      e' <= Z.max (Z.max e (Zdigits2 m + e + 1 - 53)) (emin 53 1024)
      /\ Zdigits2 (Z.pos m') + e' <= Z.max (Zdigits2 m + e) (emin 53 1024 + 53) + 1
  | _ => False
  end.
Proof.
  intros Hm He Hd. unfold binary_round_aux.
  pose proof (shr_fexp_spec m e l Hm) as H1.
  destruct (shr_fexp 53 1024 m e l) as [mrs' e'].
  destruct H1 as [He' Hm'].
  set (m1 := round_nearest_even (shr_m mrs') (loc_of_shr_record mrs')).
  pose proof (round_nearest_even_bounds (shr_m mrs') (loc_of_shr_record mrs')) as Hr.
  fold m1 in Hr.
  assert (Hm'0 : 0 <= shr_m mrs') by (rewrite Hm'; apply Z.div_pos; [lia | apply Z.pow_pos_nonneg; lia]).
  assert (Hm1 : 0 <= m1) by lia.
  pose proof (digits_after_shift m m1 e e' Hm ltac:(lia) ltac:(lia)) as Hdig.
  pose proof (shr_fexp_spec m1 e' loc_Exact Hm1) as H2.
  destruct (shr_fexp 53 1024 m1 e' loc_Exact) as [mrs'' e''].
  destruct H2 as [He'' Hm''].
  unfold fexp, emin in *.
  change IntDef.Z.max with Z.max in *.
  pose proof (Zdigits2_nonneg m) as HD.
  destruct (shr_m mrs'') as [| p | p] eqn:Hp.
  - exact I.
  - assert (Hle : (e'' <=? 1024 - 53) = true) by (apply Z.leb_le; lia).
    rewrite Hle. split; [lia |].
    pose proof (digits_after_shift_exact m1 e' e'' Hm1 ltac:(lia)) as Hdig2.
    rewrite <- Hm'' in Hdig2. cbn [Zdigits2] in *. lia.
  - assert (0 <= m1 / 2 ^ (e'' - e')) by (apply Z.div_pos; [lia | apply Z.pow_pos_nonneg; lia]).
    lia.
Qed.

Lemma iter_xO (d m : positive) : Z.pos (Pos.iter xO m d) = Z.pos m * 2 ^ Z.pos d.
Proof.
  induction d as [| d IH] using Pos.peano_ind.
  - cbn. lia.
  - rewrite Pos.iter_succ, Pos2Z.inj_xO, IH, Pos2Z.inj_succ, Z.pow_succ_r by lia. lia.
Qed.

Lemma shl_align_spec (mx : positive) (ex ex' : Z) :
  let '(mz, ez) := shl_align mx ex ex' in
  ez <= ex /\ Zdigits2 (Z.pos mz) + ez <= Zdigits2 (Z.pos mx) + ex.
Proof.
  unfold shl_align. destruct (ex' - ex) as [| d | d] eqn:Hd; try (split; lia).
  split; [lia |].
  pose proof (Zdigits2_lt (Z.pos mx) ltac:(lia)) as Hlt.
  pose proof (Zdigits2_nonneg (Z.pos mx)) as HD.
  assert (Zdigits2 (Z.pos (Pos.iter xO mx d)) <= Zdigits2 (Z.pos mx) + Z.pos d).
  { apply Zdigits2_le; [lia |]. rewrite iter_xO, Z.pow_add_r by lia.
    split; [lia |]. apply Z.mul_lt_mono_pos_r; [apply Z.pow_pos_nonneg; lia | exact Hlt]. }
  lia.
Qed.

(** The double nearest to a 64-bit integer is zero or finite, with a
    bounded exponent. *)
Lemma double_of_Z_finite (z : Z) :
  - 2 ^ 64 < z < 2 ^ 64 ->
  match binary_normalize 53 1024 z 0 false with
  | S754_zero _ => True
  | S754_finite _ m e => e <= 12 /\ Zdigits2 (Z.pos m) + e <= 65
  | _ => False
  end.
Proof.
  intros Hz. unfold binary_normalize.
  assert (Hpos : forall (sg : bool) (p : positive), Z.pos p < 2 ^ 64 ->
            match binary_round 53 1024 sg p 0 with
            | S754_zero _ => True
            | S754_finite _ m e => e <= 12 /\ Zdigits2 (Z.pos m) + e <= 65
            | _ => False
            end).
  { intros sg p Hp. unfold binary_round.
    pose proof (shl_align_spec p 0 (fexp 53 1024 (Z.pos (digits2_pos p) + 0))) as Hal.
    destruct (shl_align p 0 _) as [mz ez]. destruct Hal as [Hez Hdz].
    assert (HD : Zdigits2 (Z.pos p) <= 64) by (apply Zdigits2_le; lia).
    pose proof (Zdigits2_nonneg (Z.pos mz)) as HDz.
    pose proof (binary_round_aux_finite sg (Z.pos mz) ez loc_Exact) as Haux.
    unfold emin in *.
    specialize (Haux ltac:(lia) ltac:(lia) ltac:(lia)).
    destruct (binary_round_aux 53 1024 sg (Z.pos mz) ez loc_Exact); auto.
    lia. }
  destruct z as [| p | p]; [exact I | apply Hpos; lia | apply Hpos; lia].
Qed.

Lemma div_eucl_fst (a b : Z) : fst (Z.div_eucl a b) = a / b.
Proof. reflexivity. Qed.

(** Dividing such a double by the double [1000000.0] gives zero or a
    finite double. *)
Lemma division_by_million_finite (z : Z) :
  - 2 ^ 64 < z < 2 ^ 64 ->
  is_finite (SFdiv 53 1024 (binary_normalize 53 1024 z 0 false)
                   (binary_normalize 53 1024 1000000 0 false)) = true.
Proof.
  intros Hz. pose proof (double_of_Z_finite z Hz) as Hx.
  destruct (binary_normalize 53 1024 z 0 false) as [sx | sx | | sx mx ex];
    try contradiction.
  - reflexivity.
  - destruct Hx as [Hex Hdx].
    replace (binary_normalize 53 1024 1000000 0 false)
      with (S754_finite false 8589934592000000 (-33)) by (vm_compute; reflexivity).
    unfold SFdiv, SFdiv_core_binary.
    change (Zdigits2 8589934592000000) with 53.
    set (d1 := Zdigits2 (Z.pos mx)) in *.
    set (e' := Z.min (fexp 53 1024 (d1 + ex - (53 + -33))) (ex - -33)).
    set (sh := ex - -33 - e').
    set (m' := match sh with
               | 0 => Z.pos mx
               | Z.pos _ => Z.shiftl (Z.pos mx) sh
               | Z.neg _ => 0
               end).
    assert (Hd1 : 0 <= d1) by apply Zdigits2_nonneg.
    assert (Hm' : 0 <= m' < 2 ^ (d1 + sh) /\ 0 <= sh).
    { pose proof (Zdigits2_lt (Z.pos mx) ltac:(lia)) as Hlt. fold d1 in Hlt.
      assert (Hsh : 0 <= sh) by (unfold sh, e'; lia).
      split; [| exact Hsh]. unfold m'.
      destruct sh as [| q | q] eqn:Esh; [rewrite Z.add_0_r; lia | | lia].
      rewrite Z.shiftl_mul_pow2 by lia. rewrite Z.pow_add_r by lia.
      split; [lia |]. apply Z.mul_lt_mono_pos_r; [apply Z.pow_pos_nonneg; lia | exact Hlt]. }
    destruct Hm' as [Hm' Hsh].
    pose proof (div_eucl_fst m' 8589934592000000) as Hq.
    destruct (Z.div_eucl m' 8589934592000000) as [q r]. cbn [fst] in Hq.
    assert (Hq0 : 0 <= q <= m').
    { subst q. split; [apply Z.div_pos; lia |].
      apply Z.div_le_upper_bound; [lia |]. nia. }
    assert (Hdq : Zdigits2 q <= d1 + sh).
    { apply Zdigits2_le; lia. }
    pose proof (binary_round_aux_finite (xorb sx false) q e'
                  (new_location 8589934592000000 r)) as Haux.
    unfold fexp, emin in *.
    assert (He' : e' <= ex + 33) by (unfold e'; lia).
    specialize (Haux ltac:(lia) ltac:(lia) ltac:(unfold sh in *; lia)).
    destruct (binary_round_aux 53 1024 (xorb sx false) q e' _); auto.
Qed.

(** [duration.count() / 1000000.0] is a finite double for every count the
clock's 64-bit representation can hold. *)
Lemma millis_finite (duration_ns : Z) :
  - 2 ^ 63 <= duration_ns < 2 ^ 63 ->
  is_finite (double_div (double_of_Z duration_ns) (double_of_Z 1000000)) = true.
Proof.
  intros H. unfold double_div, double_of_Z.
  apply division_by_million_finite. lia.
Qed.

(** *** Text *)

Lemma string_app_assoc (a b c : string) :
  ((a ++ b) ++ c = a ++ (b ++ c))%string.
Proof. induction a as [| x a IH]; cbn; [| rewrite IH]; reflexivity. Qed.

Lemma dec_digit (d : Z) :
  0 <= d < 10 -> exists c, dec d = String c "" /\ is_digit c = true.
Proof.
  intros Hd.
  assert (H : d = 0 \/ d = 1 \/ d = 2 \/ d = 3 \/ d = 4 \/ d = 5 \/ d = 6
              \/ d = 7 \/ d = 8 \/ d = 9) by lia.
  repeat (destruct H as [-> | H]; [eexists; split; reflexivity |]).
  subst d. eexists. split; reflexivity.
Qed.

(** A finite double is written with exactly two decimals. *)
Lemma fixed2_two_decimals (x : spec_float) :
  is_finite x = true -> two_decimals (fixed2 x).
Proof.
  destruct x as [sg | sg | | sg m e]; try discriminate; intros _.
  - exists (sign_text sg ++ "0")%string, "0"%char, "0"%char.
    cbn [fixed2]. rewrite string_app_assoc. auto.
  - cbn [fixed2]. cbv zeta.
    destruct (dec_digit (hundredths m e / 10 mod 10)) as (c1 & -> & Hc1);
      [apply Z.mod_pos_bound; lia |].
    destruct (dec_digit (hundredths m e mod 10)) as (c2 & -> & Hc2);
      [apply Z.mod_pos_bound; lia |].
    exists (sign_text sg ++ dec (hundredths m e / 100))%string, c1, c2.
    rewrite string_app_assoc. auto.
Qed.

Section ReportClaims.

Variable host : endianness.
Variable w : World.

(** While the program waits, the probe it waits for is the last one
    sent: the step that sent it read the clock into [start] and called
    [sendto], and no [sendto] has been called since. *)
Lemma outstanding_probe (n : nat) :
  forall (s : State) (start : Z),
  main host w n = Some s -> pc s = WaitHead start ->
  exists (n0 : nat) (s0 : State),
    (n0 < n)%nat /\ main host w n0 = Some s0 /\ pc s0 = LoopHead
    /\ 0 < sendto w (sends s0)
    /\ start = now w (clock_reads s0)
    /\ sends s = S (sends s0)
    /\ (clock_reads s0 < clock_reads s)%nat.
Proof.
  induction n as [| n IH]; intros s start Hs Hpc.
  - destruct (init_spec host w) as (s0 & Hs0 & _ & _ & _ & Hpc0 & _).
    rewrite (main_zero host w s0 Hs0) in Hs. injection Hs as <-. congruence.
  - rewrite main_succ in Hs.
    destruct (main_invariant host w (fun _ => True)) with (n := n)
      as (s1 & Hs1 & Hwf1 & _); [auto | auto |].
    rewrite Hs1 in Hs. cbn [mbind option_bind] in Hs.
    destruct (step_transition host w s1 Hwf1) as (s' & Hstep & Ht).
    rewrite Hstep in Hs. injection Hs as <-.
    destruct Ht as [| Hpc1 | | m Hpc1 _ _ Hsend | | | start1 d r Hpc1 _ _ _ _ |];
      cbn [pc set_pc] in Hpc; try discriminate Hpc.
    + congruence.
    + injection Hpc as <-. exists n, s1.
      cbn [sends clock_reads set_pc record_send tick set_send_buffer].
      split; [lia |]. split; [exact Hs1 |]. split; [exact Hpc1 |].
      split; [exact Hsend |]. split; [reflexivity |]. split; [reflexivity | lia].
    + injection Hpc as <-.
      destruct (IH s1 start1 Hs1 Hpc1)
        as (n0 & s0 & Hn0 & Hs0 & Hpc0 & Hsend & Hstart & Hsends & Hclock).
      exists n0, s0.
      cbn [sends clock_reads set_pc received tick deliver record_recv set_recv_buffer].
      split; [lia |]. split; [exact Hs0 |]. split; [exact Hpc0 |].
      split; [exact Hsend |]. split; [exact Hstart |]. split; [exact Hsends | lia].
Qed.

(** C8 as the program has it.  Let a step of a run of [main] write a
    reply line.  The step is in the wait loop of the probe sent last;
    that probe was sent by an earlier step of the run, which read the
    clock (reading [clock_reads s0]) just before its [sendto].  The step
    itself reads the clock for the loop test (reading [clock_reads s]),
    calls [recvfrom], which returns the reply, and reads the clock again
    (reading [S (clock_reads s)]).  The latency reported is the last of
    these readings minus the first.  With a clock that never goes back
    it is non-negative, and it is below the wait budget ([MAX_WAIT_TIME],
    1000 ms) plus the time that passed between the two readings around
    that call of [recvfrom]: the budget is tested before the read that
    returns the reply and not after it. *)
Theorem reported_latency_bounds (n : nat) (s s' : State) (sq ttl ns : Z) :
  (forall i j : nat, (i <= j)%nat -> now w i <= now w j) ->
  main host w n = Some s -> step host w s = Some s' ->
  output s' = output s ++ [EchoReplyLine sq ttl ns] ->
  exists (start : Z) (d : list byte) (n0 : nat) (s0 : State),
    pc s = WaitHead start /\ recvfrom w (recvs s) = Some d
    /\ (n0 < n)%nat /\ main host w n0 = Some s0 /\ pc s0 = LoopHead
    /\ sends s = S (sends s0) /\ start = now w (clock_reads s0)
    /\ (clock_reads s0 < clock_reads s)%nat
    /\ ns = now w (S (clock_reads s)) - now w (clock_reads s0)
    /\ 0 <= ns
    /\ ns < MAX_WAIT_TIME * 1000000
            + (now w (S (clock_reads s)) - now w (clock_reads s)).
Proof.
  intros Hmono Hs Hstep Hout.
  destruct (main_invariant host w (fun _ => True)) with (n := n)
    as (s1 & Hs1 & Hwf & _); [auto | auto |].
  rewrite Hs in Hs1. injection Hs1 as <-.
  destruct (step_transition host w s Hwf) as (s2 & Hstep2 & Ht).
  rewrite Hstep in Hstep2. injection Hstep2 as <-.
  assert (Hsame : output s' = output s -> False).
  { intros H. rewrite H in Hout. apply (f_equal length) in Hout.
    rewrite length_app in Hout. cbn [length] in Hout. lia. }
  destruct Ht as [| | m _ _ _ _ | m _ _ _ _ | start Hpc _ | start Hpc _ _
                  | start d r Hpc _ _ _ _ | start d r Hpc Hbudget Hrecv _ _];
    try (exfalso; apply Hsame; reflexivity);
    cbn [output set_pc emit record_send tick set_send_buffer
         received deliver record_recv set_recv_buffer] in Hout;
    apply app_inj_tail in Hout as [_ Hline]; try discriminate Hline.
  injection Hline as _ _ Hns.
  destruct (outstanding_probe n s start Hs Hpc)
    as (n0 & s0 & Hn0 & Hs0 & Hpc0 & _ & Hstart & Hsends & Hclock).
  exists start, d, n0, s0.
  split; [exact Hpc |]. split; [exact Hrecv |]. split; [exact Hn0 |].
  split; [exact Hs0 |]. split; [exact Hpc0 |]. split; [exact Hsends |].
  split; [exact Hstart |]. split; [exact Hclock |].
  unfold budget_left in Hbudget. apply Z.ltb_lt in Hbudget.
  rewrite Hstart in Hns, Hbudget.
  pose proof (Hmono (clock_reads s0) (clock_reads s) ltac:(lia)) as H1.
  pose proof (Hmono (clock_reads s) (S (clock_reads s)) ltac:(lia)) as H2.
  set (a := now w (clock_reads s0)) in *. set (b := now w (clock_reads s)) in *.
  set (c := now w (S (clock_reads s))) in *.
  split; [lia |]. split; [lia |].
  pose proof (Z.quot_rem' (b - a) 1000000) as Hqr.
  pose proof (Z.rem_bound_pos (b - a) 1000000 ltac:(lia) ltac:(lia)) as Hr.
  unfold MAX_WAIT_TIME in *. lia.
Qed.

(** The address printed is the configured target. *)
Lemma target_text : inet_ntoa target_addr = GOOGLE_DNS.
Proof. reflexivity. Qed.

(** The characters of the three lines. *)
Lemma render_text (l : Line) :
  render l
  = match l with
    | EchoReplyLine sq ttl ns =>
        "64 bytes from 8.8.8.8: icmp_seq=" ++ dec sq ++ " ttl=" ++ dec ttl
          ++ " time=" ++ millis_text ns ++ " ms" ++ String "010" ""
    | SendFailedLine => "Failed to send ICMP packet" ++ String "010" ""
    | TimedOutLine => "Request timed out" ++ String "010" ""
    end%string.
Proof. destruct l; reflexivity. Qed.

Lemma probe_lines_invariant (n : nat) :
  exists s,
    main host w n = Some s /\ wf s
    /\ send_count s = 10 /\ pc s <> Returned
    /\ (length (output s) + in_flight (pc s))%nat = sends s
    /\ lines_by_probe w s
    /\ (forall start, pc s = WaitHead start -> 0 < sendto w (length (output s))).
Proof.
  destruct (main_invariant host w
              (fun s => send_count s = 10 /\ pc s <> Returned
                        /\ (length (output s) + in_flight (pc s))%nat = sends s
                        /\ lines_by_probe w s
                        /\ (forall start, pc s = WaitHead start ->
                                          0 < sendto w (length (output s)))))
    with (n := n) as (s & Hs & Hwf & HP).
  - intros s0 Hs0. pose proof (init_sends host w s0 Hs0) as Hsends.
    destruct (init_spec host w) as (s0' & Hs0' & _ & Hc & _ & Hpc & _ & Hout & _).
    rewrite Hs0 in Hs0'. injection Hs0' as <-.
    unfold lines_by_probe. rewrite Hpc, Hout, Hsends.
    split; [exact Hc |]. split; [discriminate |]. split; [reflexivity |].
    split; [intros i l Hl; discriminate Hl | intros start Hstart; discriminate Hstart].
  - intros s s' _ (Hc & Hret & Hcount & Hlines & Hsent) Ht.
    assert (Hnew : forall l : Line,
               (l = SendFailedLine <-> sendto w (length (output s)) <= 0) ->
               lines_by_probe w (emit l s)).
    { intros l Hl i l' Hi. cbn [output emit] in Hi.
      destruct (decide (i < length (output s))%nat) as [Hlt | Hge].
      - rewrite lookup_app_l in Hi by exact Hlt. exact (Hlines i l' Hi).
      - rewrite lookup_app_r in Hi by lia.
        destruct (i - length (output s))%nat as [| k] eqn:Hk; [| discriminate Hi].
        injection Hi as <-. replace i with (length (output s)) by lia. exact Hl. }
    destruct Ht as [Hpc Hle | Hpc | m Hpc _ _ Hsend | m Hpc _ _ Hsend
                    | start Hpc _ | start Hpc _ _
                    | start d r Hpc _ _ _ _ | start d r Hpc _ _ _ _];
      try (exfalso; lia); try (exfalso; exact (Hret Hpc));
      rewrite Hpc in Hcount; cbn [in_flight] in Hcount;
      cbn [send_count pc sends output set_pc emit record_send tick set_send_buffer
           received deliver record_recv set_recv_buffer in_flight];
      (split; [exact Hc |]); (split; [discriminate |]);
      rewrite ?length_app; cbn [length];
      (split; [lia |]).
    + (* the send failed *)
      split; [| intros start Hstart; discriminate Hstart].
      apply (Hnew SendFailedLine). replace (length (output s)) with (sends s) by lia.
      tauto.
    + (* the probe is out *)
      split; [exact Hlines |]. intros start _.
      replace (length (output s)) with (sends s) by lia. exact Hsend.
    + split; [| intros start' Hstart; discriminate Hstart].
      apply (Hnew TimedOutLine). pose proof (Hsent start Hpc).
      split; [discriminate | lia].
    + split; [| intros start' Hstart; discriminate Hstart].
      apply (Hnew TimedOutLine). pose proof (Hsent start Hpc).
      split; [discriminate | lia].
    + split; [exact Hlines |]. intros start' _. exact (Hsent start Hpc).
    + split; [| intros start' Hstart; discriminate Hstart].
      apply (Hnew (EchoReplyLine _ _ _)). pose proof (Hsent start Hpc).
      split; [discriminate | lia].
  - exists s. split; [exact Hs |]. split; [exact Hwf | exact HP].
Qed.

(** C9 as the program has it.  At every point [s] of a run of [main]:

    - one line has been written for every probe that is over, and none
      else; the lines stand in the order of the probes, and the line of a
      probe is ["Failed to send ICMP packet"] exactly when its [sendto]
      failed, so that a probe whose send fails gets that line and no
      timeout line, and no probe that was sent gets it;
    - the next step is defined, and what it writes is fixed by what it
      meets.  At the head of the loop a failed [sendto] ends the probe
      with the send-failure line, and a successful one writes nothing
      and starts the wait.  In the wait loop a spent budget or a failed
      read ends the probe with ["Request timed out"]; a datagram that
      matches ends it with
      ["64 bytes from 8.8.8.8: icmp_seq=S ttl=T time=M ms"], where 64 and
      8.8.8.8 are the constants of the program (the size of its own
      packet and its target), S is the outstanding sequence number, T is
      the TTL of the reply's IP header and M is the latency in
      milliseconds as a double in fixed notation, with two decimals for
      every latency that fits the 64-bit nanosecond count of the clock;
      a datagram that does not match writes nothing and the wait goes on. *)
Theorem one_line_per_probe (n : nat) (s : State) :
  main host w n = Some s ->
  (length (output s) + in_flight (pc s))%nat = sends s
  /\ (forall (i : nat) (l : Line),
        output s !! i = Some l -> (l = SendFailedLine <-> sendto w i <= 0))
  /\ exists s',
       step host w s = Some s'
       /\ (pc s = LoopHead \/ exists start, pc s = WaitHead start)
       /\ (pc s = LoopHead ->
           (sendto w (sends s) <= 0 ->
            pc s' = LoopHead /\ output s' = output s ++ [SendFailedLine]
            /\ render SendFailedLine
               = ("Failed to send ICMP packet" ++ String "010" "")%string)
           /\ (0 < sendto w (sends s) ->
               pc s' = WaitHead (now w (clock_reads s)) /\ output s' = output s))
       /\ (forall start, pc s = WaitHead start ->
           (budget_left w s start = false \/ recvfrom w (recvs s) = None ->
            pc s' = LoopHead /\ output s' = output s ++ [TimedOutLine]
            /\ render TimedOutLine = ("Request timed out" ++ String "010" "")%string)
           /\ (forall d, budget_left w s start = true ->
                         recvfrom w (recvs s) = Some d ->
               exists r,
                 parse host (recv_buffer (received d s))
                       (Z.of_nat (length (take BUFFER_SIZE d))) = Some r
                 /\ (is_match w (sequence s) r = true ->
                     let ns := now w (S (clock_reads s)) - start in
                     let l := EchoReplyLine (sequence s) (reply_ttl r) ns in
                     pc s' = LoopHead /\ output s' = output s ++ [l]
                     /\ render l
                        = ("64 bytes from 8.8.8.8: icmp_seq=" ++ dec (sequence s)
                             ++ " ttl=" ++ dec (reply_ttl r)
                             ++ " time=" ++ millis_text ns
                             ++ " ms" ++ String "010" "")%string
                     /\ (- 2 ^ 63 <= ns < 2 ^ 63 -> two_decimals (millis_text ns)))
                 /\ (is_match w (sequence s) r = false ->
                     pc s' = WaitHead start /\ output s' = output s))).
Proof.
  intros Hs.
  destruct (probe_lines_invariant n)
    as (s1 & Hs1 & Hwf & Hcount & Hret & Hlen & Hlines & _).
  rewrite Hs in Hs1. injection Hs1 as <-.
  split; [exact Hlen |]. split; [exact Hlines |].
  destruct (step_transition host w s Hwf) as (s' & Hstep & Ht).
  exists s'. split; [exact Hstep |].
  destruct Ht as [Hpc Hle | Hpc | m Hpc _ _ Hsend | m Hpc _ _ Hsend
                  | start Hpc Hb | start Hpc Hb Hr
                  | start d r Hpc Hb Hr Hparse Hmatch
                  | start d r Hpc Hb Hr Hparse Hmatch];
    try (exfalso; lia); try (exfalso; exact (Hret Hpc)).
  - (* the send failed *)
    split; [left; exact Hpc |]. split; [| intros start Hstart; congruence].
    intros _. split; [intros _; repeat split | intros Hok; lia].
  - (* the probe is out *)
    split; [left; exact Hpc |]. split; [| intros start Hstart; congruence].
    intros _. split; [intros Hfail; lia | intros _; split; reflexivity].
  - (* the budget is spent *)
    split; [right; exists start; exact Hpc |]. split; [intros H; congruence |].
    intros start' Hstart. rewrite Hpc in Hstart. injection Hstart as <-.
    split; [intros _; repeat split | intros d Hb'; congruence].
  - (* the read failed *)
    split; [right; exists start; exact Hpc |]. split; [intros H; congruence |].
    intros start' Hstart. rewrite Hpc in Hstart. injection Hstart as <-.
    split; [intros _; repeat split | intros d _ Hr'; congruence].
  - (* a datagram that does not match *)
    split; [right; exists start; exact Hpc |]. split; [intros H; congruence |].
    intros start' Hstart. rewrite Hpc in Hstart. injection Hstart as <-.
    split; [intros [H | H]; congruence |].
    intros d' _ Hr'. rewrite Hr in Hr'. injection Hr' as <-.
    exists r. split; [exact Hparse |].
    split; [intros H; congruence | intros _; split; reflexivity].
  - (* a datagram that matches *)
    split; [right; exists start; exact Hpc |]. split; [intros H; congruence |].
    intros start' Hstart. rewrite Hpc in Hstart. injection Hstart as <-.
    split; [intros [H | H]; congruence |].
    intros d' _ Hr'. rewrite Hr in Hr'. injection Hr' as <-.
    exists r. split; [exact Hparse |].
    split; [| intros H; congruence].
    intros _. cbv zeta.
    assert (Hseq : reply_sequence r = sequence s)
      by (apply is_match_iff in Hmatch; tauto).
    cbn [pc output set_pc emit]. rewrite Hseq.
    split; [reflexivity |]. split; [reflexivity |]. split; [reflexivity |].
    intros Hns. unfold millis_text.
    apply fixed2_two_decimals, millis_finite, Hns.
Qed.

End ReportClaims.

(** ** The scenarios, run *)

Module ScenarioFacts.

Import Scenario.

Lemma quiet_waiting : main host quiet 1 = Some (after quiet 1).
Proof. vm_compute. reflexivity. Qed.

Lemma after_wf (w : World) (n : nat) : wf (after w n).
Proof.
  unfold after. destruct (main_invariant host w (fun _ => True)) with (n := n)
    as (s & -> & Hwf & _); auto.
Qed.

(** Round trip on the reply of scenario [prompt], behind its IP header. *)
Lemma checksum_round_trip_witness :
  let B := icmp_message ICMP_ECHOREPLY 0 1234 0 payload in
  let s := mkState 10 0 []
                   (ip_header 55 [x08; x08; x08; x08] ++ echo_reply 1234 0 payload)
                   0 0 0 [] [] (WaitHead 0) in
  read16 host B Off.icmp_checksum = Some 0
  /\ calculate_checksum host B 64 = Some 1878
  /\ validate_checksum host 20 64 s = Some (true, s).
Proof.
  cbv zeta.
  split; [vm_compute; reflexivity |]. split; [vm_compute; reflexivity |].
  apply (checksum_round_trip host
           (icmp_message ICMP_ECHOREPLY 0 1234 0 payload)
           (echo_reply 1234 0 payload)
           (ip_header 55 [x08; x08; x08; x08]) 64 1878);
    vm_compute; reflexivity.
Defined.

(** In scenario [late] the first datagram belongs to another process. *)
Lemma candidate_match_iff_witness :
  reply_id (first_reply late) = 4321
  /\ exists s', step host late (after late 1) = Some s'
                /\ pc s' = WaitHead 0 /\ output s' = [].
Proof.
  split; [vm_compute; reflexivity |].
  destruct (candidate_match_iff host late (after late 1) 0
              (ip_header 55 [x08; x08; x08; x08] ++ echo_reply 4321 7 payload))
    as (r & s' & Hparse & Hstep & _ & _ & _ & Hdiff & _).
  - apply after_wf.
  - vm_compute. reflexivity.
  - vm_compute. reflexivity.
  - reflexivity.
  - exists s'. split; [exact Hstep |].
    vm_compute in Hparse. injection Hparse as <-.
    destruct Hdiff as (_ & Hpc & Hout); [right; left; vm_compute; discriminate |].
    split; [exact Hpc |]. rewrite Hout. vm_compute. reflexivity.
Defined.

(** C6, refuted.  In scenario [quiet] the first read fails a few
    microseconds after the send.  The step leaves the wait loop and
    reports a timeout after that one read, although the loop test, taken
    again in the state reached, would still find the budget unspent. *)
Lemma read_failure_cuts_wait_short :
  exists s s',
    main host quiet 1 = Some s
    /\ pc s = WaitHead 0 /\ budget_left quiet s 0 = true
    /\ recvfrom quiet (recvs s) = None
    /\ step host quiet s = Some s'
    /\ pc s' = LoopHead /\ output s' = [TimedOutLine] /\ recvs s' = 1%nat
    /\ budget_left quiet s' 0 = true.
Proof.
  exists (after quiet 1). eexists.
  split; [exact quiet_waiting |].
  split; [vm_compute; reflexivity |]. split; [vm_compute; reflexivity |].
  split; [reflexivity |]. split; [vm_compute; reflexivity |].
  repeat split.
Qed.

Lemma read_failure_ends_wait_witness :
  wf (after quiet 1) /\ pc (after quiet 1) = WaitHead 0
  /\ exists s', step host quiet (after quiet 1) = Some s'
                /\ pc s' = LoopHead /\ output s' = [TimedOutLine].
Proof.
  split; [apply after_wf |]. split; [vm_compute; reflexivity |].
  destruct (read_failure_ends_wait host quiet (after quiet 1) 0)
    as (s' & Hstep & Hfail & _).
  - apply after_wf.
  - vm_compute. reflexivity.
  - exists s'. split; [exact Hstep |].
    destruct Hfail as (Hpc & Hout & _);
      [vm_compute; reflexivity | reflexivity |].
    split; [exact Hpc |]. rewrite Hout. vm_compute. reflexivity.
Defined.

(** In scenario [corrupted] the reply matches in type, identifier and
    sequence and its checksum is wrong. *)
Lemma bad_checksum_rejected_witness :
  is_candidate corrupted 0 (first_reply corrupted) = true
  /\ reply_checksum (first_reply corrupted) <> reply_recomputed (first_reply corrupted)
  /\ exists s', step host corrupted (after corrupted 1) = Some s'
                /\ pc s' = WaitHead 0 /\ output s' = [].
Proof.
  split; [vm_compute; reflexivity |]. split; [vm_compute; discriminate |].
  destruct (bad_checksum_rejected host corrupted (after corrupted 1) 0
              (ip_header 55 [x08; x08; x08; x08]
                 ++ <[2%nat := x00]> (echo_reply 1234 0 payload))
              (first_reply corrupted))
    as (s' & s'' & Hstep & Hpc & Hout & _).
  - apply after_wf.
  - vm_compute. reflexivity.
  - vm_compute. reflexivity.
  - reflexivity.
  - vm_compute. reflexivity.
  - vm_compute. reflexivity.
  - vm_compute. discriminate.
  - exists s'. split; [exact Hstep |]. split; [exact Hpc |].
    rewrite Hout. vm_compute. reflexivity.
Defined.

Lemma late_clock_monotone (i j : nat) : (i <= j)%nat -> now late i <= now late j.
Proof.
  intros Hij.
  destruct i as [| [| [| [| i]]]], j as [| [| [| [| j]]]]; cbn [now late]; lia.
Qed.

(** C8, refuted.  In scenario [late] the clock never goes back and the
probe is matched with a reported latency of 1500 ms, above the budget
of 1000 ms.  In scenario [set_back] the clock is set back during the
wait and the probe is matched with a negative reported latency. *)
Lemma latency_outside_claimed_bounds :
  (exists s, main host late 3 = Some s
             /\ output s = [EchoReplyLine 0 55 1500000000]
             /\ ~ (1500000000 <= MAX_WAIT_TIME * 1000000))
  /\ (exists s, main host set_back 2 = Some s
                /\ output s = [EchoReplyLine 0 55 (-999950000)]
                /\ ~ (0 <= -999950000)).
Proof.
  split.
  - eexists. split; [vm_compute; reflexivity |].
    split; [reflexivity |]. unfold MAX_WAIT_TIME. lia.
  - eexists. split; [vm_compute; reflexivity |].
    split; [reflexivity |]. lia.
Qed.

Lemma reported_latency_bounds_witness :
  main host late 2 = Some (after late 2)
  /\ step host late (after late 2) = Some (after late 3)
  /\ output (after late 3) = output (after late 2) ++ [EchoReplyLine 0 55 1500000000]
  /\ 0 <= 1500000000
  /\ 1500000000 < MAX_WAIT_TIME * 1000000 + (now late 4 - now late 3).
Proof.
  assert (H1 : main host late 2 = Some (after late 2)) by (vm_compute; reflexivity).
  assert (H2 : step host late (after late 2) = Some (after late 3))
    by (vm_compute; reflexivity).
  assert (H3 : output (after late 3)
               = output (after late 2) ++ [EchoReplyLine 0 55 1500000000])
    by (vm_compute; reflexivity).
  split; [exact H1 |]. split; [exact H2 |]. split; [exact H3 |].
  destruct (reported_latency_bounds host late 2 (after late 2) (after late 3)
              0 55 1500000000 late_clock_monotone H1 H2 H3)
    as (start & d & n0 & s0 & _ & _ & _ & _ & _ & _ & _ & _ & _ & Hlow & Hhigh).
  split; [exact Hlow | exact Hhigh].
Defined.

(** C9, refuted.  In scenario [foreign] the reply is 32 bytes long (12
    without its IP header) and comes from 1.2.3.4; the line for it names
    64 bytes and 8.8.8.8 and neither the size nor the source of the
    reply.  In scenario [unreachable] the send fails, and the one line
    for the failed probe does not state a timeout. *)
Lemma reply_line_reports_constants :
  (exists s d line,
     main host foreign 2 = Some s
     /\ recvfrom foreign 0 = Some d
     /\ length d = 32%nat
     /\ inet_ntoa (take 4 (drop Off.ip_saddr d)) = "1.2.3.4"%string
     /\ map render (output s) = [line]
     /\ line = ("64 bytes from 8.8.8.8: icmp_seq=0 ttl=64 time=0.00 ms"
                  ++ String "010" "")%string
     /\ contains "1.2.3.4" line = false
     /\ contains "32 bytes" line = false
     /\ contains "12 bytes" line = false)
  /\ (exists s line,
        main host unreachable 1 = Some s
        /\ map render (output s) = [line]
        /\ line = ("Failed to send ICMP packet" ++ String "010" "")%string
        /\ line <> render TimedOutLine).
Proof.
  split.
  - do 3 eexists. split; [vm_compute; reflexivity |].
    split; [reflexivity |]. split; [reflexivity |].
    split; [vm_compute; reflexivity |]. split; [vm_compute; reflexivity |].
    split; [reflexivity |]. repeat split.
  - do 2 eexists. split; [vm_compute; reflexivity |].
    split; [vm_compute; reflexivity |]. split; [reflexivity |].
    vm_compute. discriminate.
Qed.

Lemma one_line_per_probe_witness :
  main host prompt 1 = Some (after prompt 1)
  /\ exists s', step host prompt (after prompt 1) = Some s'
                /\ map render (output s')
                   = [("64 bytes from 8.8.8.8: icmp_seq=0 ttl=55 time=50.00 ms"
                         ++ String "010" "")%string].
Proof.
  assert (H1 : main host prompt 1 = Some (after prompt 1))
    by (vm_compute; reflexivity).
  split; [exact H1 |].
  destruct (one_line_per_probe host prompt 1 (after prompt 1) H1)
    as (_ & _ & s' & Hstep & _).
  exists s'. split; [exact Hstep |].
  vm_compute in Hstep. injection Hstep as <-. vm_compute. reflexivity.
Defined.

(** Eleven probes in scenario [unreachable]: an eleventh [sendto] is made
    and the loop is at its head again. *)
Lemma eleven_probes :
  exists s, main host unreachable 11 = Some s
            /\ sends s = 11%nat /\ send_count s = 10 /\ pc s = LoopHead.
Proof. eexists. split; [vm_compute; reflexivity |]. repeat split. Qed.

(** The second probe of scenario [quiet] goes out with sequence 0. *)
Lemma second_probe_sequence :
  exists s, main host quiet 3 = Some s
            /\ map (fun p => read16 host p Off.icmp_sequence) (sent s)
               = [Some 0; Some 0].
Proof. eexists. split; [vm_compute; reflexivity |]. vm_compute. reflexivity. Qed.

End ScenarioFacts.


(** * Part III: further properties of the checksum routine and the probe loop *)

(** ** The checksum routine on a prefix of memory *)

Section ChecksumPrefix.

Variable host : endianness.

(** The word loop never looks behind the [len] bytes it is given. *)
Lemma checksum_words_app (b : list byte) :
  forall (len sum : Z) (ext : list byte), len <= Z.of_nat (length b) ->
  exists rest r s,
    checksum_words host b len sum = Some (rest, r, s)
    /\ checksum_words host (b ++ ext) len sum = Some (rest ++ ext, r, s)
    /\ (r = 1 -> rest <> []).
Proof.
  induction b as [| a | b0 b1 l IH] using list_pair_ind; intros len sum ext Hlen.
  - cbn [length] in Hlen. exists [], len, sum.
    assert (H : (1 <? len) = false) by (apply Z.ltb_ge; lia).
    cbn [app]. destruct ext as [| e0 [| e1 ext]];
      cbn [checksum_words]; rewrite H; repeat split; lia.
  - cbn [length] in Hlen. exists [a], len, sum.
    assert (H : (1 <? len) = false) by (apply Z.ltb_ge; lia).
    cbn [app]. destruct ext as [| e0 ext];
      cbn [checksum_words]; rewrite H; repeat split; discriminate.
  - change ((b0 :: b1 :: l) ++ ext) with (b0 :: b1 :: (l ++ ext)).
    cbn [checksum_words]. destruct (1 <? len) eqn:Hlt.
    + apply IH. cbn [length] in Hlen. lia.
    + exists (b0 :: b1 :: l), len, sum. repeat split. discriminate.
Qed.

Lemma calculate_checksum_app (b ext : list byte) (len : Z) :
  len <= Z.of_nat (length b) ->
  calculate_checksum host (b ++ ext) len = calculate_checksum host b len.
Proof.
  intros Hlen. unfold calculate_checksum.
  destruct (checksum_words_app b len 0 ext Hlen) as (rest & r & s & -> & -> & Hrest).
  cbn [mbind option_bind].
  destruct (r =? 1) eqn:Hr; [| reflexivity].
  apply Z.eqb_eq in Hr. destruct rest as [| c rest]; [| reflexivity].
  exfalso. exact (Hrest Hr eq_refl).
Qed.

Lemma calculate_checksum_whole (b : list byte) :
  calculate_checksum host b (Z.of_nat (length b)) = Some (internet_checksum host b).
Proof.
  unfold calculate_checksum.
  rewrite checksum_words_exact by reflexivity.
  cbn [mbind option_bind]. unfold internet_checksum, word_sum, trailing_word.
  rewrite Z.add_0_l.
  destruct (Nat.odd (length b)); cbn [Z.eqb Pos.eqb mbind option_bind]; f_equal;
    rewrite fold_complement by apply u32_range; unfold u32.
  - rewrite Zplus_mod_idemp_l. reflexivity.
  - rewrite Z.add_0_r. reflexivity.
Qed.

(** X1.  Called with a length [len] between 0 and the size of the memory
behind the pointer, [calculate_checksum] returns the Internet checksum of
the first [len] bytes: no byte behind them is read or has any influence. *)
Theorem calculate_checksum_prefix (b : list byte) (len : Z) :
  0 <= len <= Z.of_nat (length b) ->
  calculate_checksum host b len
  = Some (internet_checksum host (take (Z.to_nat len) b)).
Proof.
  intros Hlen.
  rewrite <- (take_drop (Z.to_nat len) b) at 1.
  assert (Hl : Z.of_nat (length (take (Z.to_nat len) b)) = len)
    by (rewrite length_take; lia).
  rewrite calculate_checksum_app by lia.
  rewrite <- Hl at 2.
  apply calculate_checksum_whole.
Qed.

(** X2.  Called with a length of zero or less, [calculate_checksum] reads
nothing and returns [0xFFFF], whatever the memory behind the pointer, an
empty buffer included. *)
Theorem calculate_checksum_no_bytes (b : list byte) (len : Z) :
  len <= 0 -> calculate_checksum host b len = Some 0xFFFF.
Proof.
  intros Hlen. unfold calculate_checksum.
  assert (H : checksum_words host b len 0 = Some (b, len, 0)).
  { assert (Hlt : (1 <? len) = false) by (apply Z.ltb_ge; lia).
    destruct b as [| b0 [| b1 b]]; cbn [checksum_words]; rewrite Hlt; reflexivity. }
  rewrite H. cbn [mbind option_bind].
  replace (len =? 1) with false by (symmetry; apply Z.eqb_neq; lia).
  reflexivity.
Qed.

(** A length beyond the memory behind the pointer makes the word loop, or
the read of the odd byte, leave that memory. *)
Lemma checksum_words_overrun (b : list byte) :
  forall len sum : Z, Z.of_nat (length b) < len ->
  checksum_words host b len sum = None
  \/ exists s, checksum_words host b len sum = Some ([], 1, s).
Proof.
  induction b as [| a | b0 b1 l IH] using list_pair_ind; intros len sum Hlen;
    cbn [length] in Hlen; cbn [checksum_words].
  - destruct (1 <? len) eqn:Hlt; [left; reflexivity |].
    apply Z.ltb_ge in Hlt. right. exists sum. do 2 f_equal. f_equal. lia.
  - replace (1 <? len) with true by (symmetry; apply Z.ltb_lt; lia).
    left. reflexivity.
  - replace (1 <? len) with true by (symmetry; apply Z.ltb_lt; lia).
    apply IH. lia.
Qed.

(** X13.  [calculate_checksum] is defined, that is, stays inside the
memory behind its pointer, exactly when the length it is given does not
exceed the size of that memory.  A greater length makes it read behind
the end, in the word loop or, for an odd length, at the last byte. *)
Theorem calculate_checksum_defined_iff (b : list byte) (len : Z) :
  is_Some (calculate_checksum host b len) <-> len <= Z.of_nat (length b).
Proof.
  split.
  - intros [c Hc]. destruct (Z.le_gt_cases len (Z.of_nat (length b))) as [Hle | Hgt];
      [exact Hle | exfalso].
    unfold calculate_checksum in Hc.
    destruct (checksum_words_overrun b len 0 Hgt) as [H | [s H]];
      rewrite H in Hc; discriminate Hc.
  - intros Hle. destruct (calculate_checksum_defined host b len Hle) as (c & Hc & _).
    exists c. exact Hc.
Qed.

End ChecksumPrefix.

(** ** The arithmetic of the checksum *)

Section ChecksumArithmetic.

Variable host : endianness.

Lemma trailing_word_cons2 (a b : byte) (l : list byte) :
  trailing_word (a :: b :: l) = trailing_word l.
Proof.
  unfold trailing_word. change (length (a :: b :: l)) with (S (S (length l))).
  rewrite Nat.odd_succ_succ. destruct l as [| c l]; reflexivity.
Qed.

Lemma word_sum_cons2 (a b : byte) (l : list byte) :
  word_sum host (a :: b :: l) = load16 host a b + word_sum host l.
Proof.
  unfold word_sum. rewrite trailing_word_cons2, words16_cons2. cbn [foldr]. lia.
Qed.

(** The checksum by the sum of the words, while the accumulator holds it. *)
Lemma internet_checksum_by_sum (b : list byte) :
  word_sum host b < 2 ^ 32 ->
  0 <= internet_checksum host b <= 65535
  /\ (word_sum host b + internet_checksum host b) mod 65535 = 0
  /\ (internet_checksum host b = 65535 <-> word_sum host b = 0).
Proof.
  intros Hlt. pose proof (word_sum_bound host b) as Hsum.
  unfold internet_checksum. cbv zeta.
  rewrite (Z.mod_small (word_sum host b) (2 ^ 32)) by lia.
  set (S := word_sum host b) in *. change (2 ^ 16) with 65536.
  split; [Z.div_mod_to_equations; lia |].
  split; [Z.div_mod_to_equations; lia |].
  split; intros H0; Z.div_mod_to_equations; lia.
Qed.

Lemma word_sum_fits (b : list byte) :
  Z.of_nat (length b) <= 131072 -> word_sum host b < 2 ^ 32.
Proof. intros H. pose proof (word_sum_bound host b). lia. Qed.

(** X3.  For a buffer of at most 128 KiB the value [calculate_checksum]
returns is the ones'-complement checksum of RFC 1071: added to the sum of
the buffer's 16-bit words (an odd last byte counted as a word) it gives a
multiple of [0xFFFF], and it is [0xFFFF] exactly when that sum is zero. *)
Theorem checksum_ones_complement (b : list byte) (c : Z) :
  Z.of_nat (length b) <= 131072 ->
  calculate_checksum host b (Z.of_nat (length b)) = Some c ->
  0 <= c <= 0xFFFF
  /\ (word_sum host b + c) mod 0xFFFF = 0
  /\ (c = 0xFFFF <-> word_sum host b = 0).
Proof.
  intros Hlen Hc. rewrite calculate_checksum_whole in Hc. injection Hc as <-.
  apply internet_checksum_by_sum, word_sum_fits, Hlen.
Qed.

(** A sum that is a positive multiple of [0xFFFF] has checksum zero. *)
Lemma internet_checksum_zero (b : list byte) :
  0 < word_sum host b < 2 ^ 32 -> word_sum host b mod 65535 = 0 ->
  internet_checksum host b = 0.
Proof.
  intros Hs Hm. unfold internet_checksum. cbv zeta.
  rewrite (Z.mod_small (word_sum host b) (2 ^ 32)) by lia.
  set (S := word_sum host b) in *. change (2 ^ 16) with 65536.
  Z.div_mod_to_equations. lia.
Qed.

(** The sum of a buffer whose checksum field, zero before, holds [c]. *)
Lemma word_sum_stamped (B B' : list byte) (c : Z) :
  read16 host B Off.icmp_checksum = Some 0 -> 0 <= c < 2 ^ 16 ->
  write16 host B Off.icmp_checksum c = Some B' ->
  word_sum host B' = word_sum host B + c.
Proof.
  unfold Off.icmp_checksum. intros Hzero Hc [Hlen ->]%write16_inv.
  destruct B as [| b0 [| b1 [| b2 [| b3 rest]]]]; cbn [length] in Hlen; try lia.
  unfold read16 in Hzero. cbn [lookup list_lookup mbind option_bind] in Hzero.
  injection Hzero as Hzero.
  cbn [insert list_insert].
  rewrite !word_sum_cons2, load16_store16, Hzero by exact Hc. lia.
Qed.

(** Writing the checksum of a buffer into its zero checksum field gives a
buffer whose checksum is zero. *)
Lemma internet_checksum_stamped (B B' : list byte) :
  Z.of_nat (length B) <= 131072 ->
  read16 host B Off.icmp_checksum = Some 0 ->
  write16 host B Off.icmp_checksum (internet_checksum host B) = Some B' ->
  internet_checksum host B' = 0.
Proof.
  intros Hlen Hzero Hw.
  destruct (internet_checksum_by_sum B (word_sum_fits B Hlen))
    as (Hrange & Hmod & Hzero_iff).
  assert (Hr : 0 <= internet_checksum host B < 2 ^ 16) by lia.
  pose proof (word_sum_stamped B B' _ Hzero Hr Hw) as Hsum.
  pose proof (write16_length host B B' _ _ Hw) as Hl.
  pose proof (word_sum_bound host B) as HB.
  assert (Hlen' : Z.of_nat (length B') <= 131072) by lia.
  pose proof (word_sum_fits B' Hlen') as Hfit.
  apply internet_checksum_zero; [| rewrite Hsum; exact Hmod].
  split; [| exact Hfit]. rewrite Hsum.
  destruct (Z.eq_dec (word_sum host B) 0) as [H0 | H0]; [| lia].
  apply Hzero_iff in H0. lia.
Qed.

(** X4.  Stamp a buffer of at most 128 KiB whose checksum field is zero
with the checksum of its contents.  [calculate_checksum] over the stamped
buffer returns 0: the usual receiver-side test of an Internet checksum
succeeds on everything this routine has stamped. *)
Theorem checksum_of_stamped_is_zero (B B' : list byte) (c : Z) :
  Z.of_nat (length B) <= 131072 ->
  read16 host B Off.icmp_checksum = Some 0 ->
  calculate_checksum host B (Z.of_nat (length B)) = Some c ->
  write16 host B Off.icmp_checksum c = Some B' ->
  calculate_checksum host B' (Z.of_nat (length B')) = Some 0.
Proof.
  intros Hlen Hzero Hc Hw.
  rewrite calculate_checksum_whole in Hc. injection Hc as <-.
  rewrite calculate_checksum_whole. f_equal.
  exact (internet_checksum_stamped B B' Hlen Hzero Hw).
Qed.

End ChecksumArithmetic.

(** ** Byte order *)

(** The byte-swapped word is, modulo [0xFFFF], 256 times the word. *)
Lemma swapped_checksum (cl cb : Z) :
  0 <= cl <= 65535 -> 0 <= cb <= 65535 ->
  (256 * (65535 - cl) - (65535 - cb)) mod 65535 = 0 ->
  (cl = 65535 <-> cb = 65535) ->
  cb = 256 * (cl mod 256) + cl / 256.
Proof.
  intros Hl Hb Hmod Hiff.
  destruct (Z.eq_dec cl 65535) as [-> | Hne].
  - assert (cb = 65535) by tauto. subst cb. reflexivity.
  - assert (cb <> 65535) by tauto.
    Z.div_mod_to_equations. lia.
Qed.

Lemma word_sums_by_byte_order (b : list byte) :
  Nat.even (length b) = true ->
  0 <= word_sum LittleEndian b
  /\ 0 <= word_sum BigEndian b
  /\ (exists k, 256 * word_sum LittleEndian b = word_sum BigEndian b + 65535 * k)
  /\ (word_sum LittleEndian b = 0 <-> word_sum BigEndian b = 0).
Proof.
  induction b as [| a | b0 b1 l IH] using list_pair_ind; intros Hev.
  - change (word_sum LittleEndian []) with 0. change (word_sum BigEndian []) with 0.
    split; [lia |]. split; [lia |]. split; [exists 0; lia | tauto].
  - discriminate.
  - change (length (b0 :: b1 :: l)) with (S (S (length l))) in Hev.
    rewrite Nat.even_succ_succ in Hev.
    destruct (IH Hev) as (Hl & Hb & [k Hk] & Hiff).
    rewrite !word_sum_cons2. unfold load16.
    pose proof (to_Z_range b0). pose proof (to_Z_range b1).
    split; [lia |]. split; [lia |]. split; [exists (k + Bytes.to_Z b1); lia |].
    split; intros H1.
    + assert (word_sum LittleEndian l = 0) by lia. lia.
    + assert (word_sum BigEndian l = 0) by lia. lia.
Qed.

(** X5.  For a buffer of even length, at most 128 KiB, the two bytes that
the checksum occupies in memory do not depend on the byte order of the
host: a little-endian and a big-endian machine running
[calculate_checksum] put the same bytes on the wire. *)
Theorem checksum_bytes_independent_of_byte_order (b : list byte) (cl cb : Z) :
  Nat.even (length b) = true -> Z.of_nat (length b) <= 131072 ->
  calculate_checksum LittleEndian b (Z.of_nat (length b)) = Some cl ->
  calculate_checksum BigEndian b (Z.of_nat (length b)) = Some cb ->
  store16 LittleEndian cl = store16 BigEndian cb.
Proof.
  intros Hev Hlen Hl Hb.
  rewrite calculate_checksum_whole in Hl, Hb. injection Hl as <-. injection Hb as <-.
  destruct (internet_checksum_by_sum LittleEndian b (word_sum_fits LittleEndian b Hlen))
    as (Hrl & Hml & Hil).
  destruct (internet_checksum_by_sum BigEndian b (word_sum_fits BigEndian b Hlen))
    as (Hrb & Hmb & Hib).
  set (cl := internet_checksum LittleEndian b) in *.
  set (cb := internet_checksum BigEndian b) in *.
  destruct (word_sums_by_byte_order b Hev) as (Hsl & Hsb & [k Hk] & Hiff).
  assert (Hswap : cb = 256 * (cl mod 256) + cl / 256).
  { apply swapped_checksum; [lia | lia | | tauto].
    set (SL := word_sum LittleEndian b) in *. set (SB := word_sum BigEndian b) in *.
    Z.div_mod_to_equations. lia. }
  unfold store16. rewrite !Z.shiftr_div_pow2 by lia. change (2 ^ 8) with 256.
  f_equal.
  - rewrite <- (of_Z_mod cl), <- (of_Z_mod (cb / 256)). f_equal.
    rewrite Hswap. Z.div_mod_to_equations. lia.
  - rewrite <- (of_Z_mod (cl / 256)), <- (of_Z_mod cb). f_equal.
    rewrite Hswap. Z.div_mod_to_equations. lia.
Qed.

(** For an odd length the tail byte is added by its value on either host,
and the bytes of the result do depend on the byte order. *)
Example odd_length_depends_on_byte_order :
  store16 LittleEndian (internet_checksum LittleEndian [x01; x02; x03])
  <> store16 BigEndian (internet_checksum BigEndian [x01; x02; x03]).
Proof. vm_compute. discriminate. Qed.

(** ** Detection of a changed byte *)

Lemma to_Z_inj (a b : byte) : Bytes.to_Z a = Bytes.to_Z b -> a = b.
Proof. intros H. rewrite <- (of_to_Z a), <- (of_to_Z b), H. reflexivity. Qed.

Section Corruption.

Variable host : endianness.

(** Replacing one byte moves the sum of the words by the difference of
the two bytes, once or 256 times. *)
Lemma word_sum_insert (b : list byte) :
  forall (i : nat) (x old : byte), b !! i = Some old ->
  exists weight, (weight = 1 \/ weight = 256)
                 /\ word_sum host (<[i := x]> b)
                    = word_sum host b + weight * (Bytes.to_Z x - Bytes.to_Z old).
Proof.
  induction b as [| a | b0 b1 l IH] using list_pair_ind; intros i x old Hi.
  - discriminate.
  - destruct i as [| i]; [| discriminate]. injection Hi as <-.
    exists 1. split; [auto |]. unfold word_sum, trailing_word. cbn -[Bytes.to_Z]. lia.
  - destruct i as [| [| i]].
    + injection Hi as <-. cbn [insert list_insert]. rewrite !word_sum_cons2.
      unfold load16. destruct host; [exists 1 | exists 256]; split; auto; lia.
    + injection Hi as <-. cbn [insert list_insert]. rewrite !word_sum_cons2.
      unfold load16. destruct host; [exists 256 | exists 1]; split; auto; lia.
    + cbn [lookup list_lookup] in Hi. destruct (IH i x old Hi) as (weight & Hw & Hsum).
      exists weight. split; [exact Hw |].
      change (<[S (S i) := x]> (b0 :: b1 :: l)) with (b0 :: b1 :: <[i := x]> l).
      rewrite !word_sum_cons2, Hsum. lia.
Qed.

(** The checksum of a buffer of at most 128 KiB changes when one of its
bytes does. *)
Lemma checksum_detects_byte_change (b : list byte) (i : nat) (x old : byte) :
  Z.of_nat (length b) <= 131072 -> b !! i = Some old -> x <> old ->
  internet_checksum host (<[i := x]> b) <> internet_checksum host b.
Proof.
  intros Hlen Hi Hne Heq.
  destruct (word_sum_insert b i x old Hi) as (weight & Hw & Hsum).
  assert (Hd : Bytes.to_Z x <> Bytes.to_Z old) by (intros H; apply Hne, to_Z_inj, H).
  pose proof (to_Z_range x). pose proof (to_Z_range old).
  destruct (internet_checksum_by_sum host b (word_sum_fits host b Hlen))
    as (_ & Hm & _).
  destruct (internet_checksum_by_sum host (<[i := x]> b))
    as (_ & Hm' & _).
  { apply word_sum_fits. rewrite length_insert. exact Hlen. }
  rewrite Heq, Hsum in Hm'.
  set (S := word_sum host b) in *. set (c := internet_checksum host b) in *.
  destruct Hw as [-> | ->]; Z.div_mod_to_equations; lia.
Qed.

Lemma load16_inj (a0 a1 b0 b1 : byte) :
  load16 host a0 a1 = load16 host b0 b1 -> a0 = b0 /\ a1 = b1.
Proof.
  intros H. pose proof (store16_load16 host a0 a1) as Ha.
  rewrite H, store16_load16 in Ha. injection Ha as -> ->. auto.
Qed.

Lemma read16_app_l (m post : list byte) (i : nat) :
  (S i < length m)%nat -> read16 host (m ++ post) i = read16 host m i.
Proof.
  intros Hi. unfold read16. rewrite !lookup_app_l by lia. reflexivity.
Qed.

Lemma write16_app_l (m m' post : list byte) (i : nat) (v : Z) :
  write16 host m i v = Some m' ->
  write16 host (m ++ post) i v = Some (m' ++ post).
Proof.
  intros [Hi ->]%write16_inv.
  rewrite write16_lt by (rewrite length_app; lia). f_equal.
  rewrite !insert_app_l by (rewrite ?length_insert; lia). reflexivity.
Qed.

(** X6.  Take an ICMP message [B] that passes the validation: its
checksum field holds the checksum of the message with that field zeroed.
Change any one of its bytes, the checksum bytes included.  The validation
the program performs on the changed message, wherever it lies in the
receive buffer and whatever follows it, answers [false]. *)
Theorem changed_byte_fails_validation
        (s : State) (pre B zeroed post : list byte) (i : nat) (x old : byte) (c : Z) :
  Z.of_nat (length B) <= 131072 ->
  read16 host B Off.icmp_checksum = Some c ->
  write16 host B Off.icmp_checksum 0 = Some zeroed ->
  calculate_checksum host zeroed (Z.of_nat (length B)) = Some c ->
  B !! i = Some old -> x <> old ->
  recv_buffer s = pre ++ <[i := x]> B ++ post ->
  validate_checksum host (length pre) (Z.of_nat (length B)) s = Some (false, s).
Proof.
  unfold Off.icmp_checksum.
  intros Hlen Hstored Hzero Hcalc Hi Hne Hrb.
  pose proof (write16_length host _ _ _ _ Hzero) as Hlz.
  destruct (write16_inv host _ _ _ _ Hzero) as [H3 Hzeroed].
  destruct (read16_lt host (<[i := x]> B) 2) as (stored' & Hstored' & _);
    [rewrite length_insert; lia |].
  destruct (write16_lt host (<[i := x]> B) 2 0) as [];
    [rewrite length_insert; lia |].
  set (zeroed' := <[3%nat := (store16 host 0).2]>
                    (<[2%nat := (store16 host 0).1]> (<[i := x]> B))).
  assert (Hzero' : write16 host (<[i := x]> B) 2 0 = Some zeroed')
    by (apply write16_lt; rewrite length_insert; lia).
  assert (Hlz' : length zeroed' = length B)
    by (unfold zeroed'; rewrite !length_insert; reflexivity).
  destruct (calculate_checksum_defined host zeroed' (Z.of_nat (length B)))
    as (calc' & Hcalc' & _); [lia |].
  rewrite (validate_checksum_eq host s (length pre) (Z.of_nat (length B))
             stored' calc' (pre ++ zeroed' ++ post)).
  - assert (Hdiff : stored' <> calc'); [| apply Z.eqb_neq in Hdiff; rewrite Hdiff; reflexivity].
    destruct (decide (i = 2%nat \/ i = 3%nat)) as [Hfield | Hother].
    + (* the changed byte is one of the two checksum bytes *)
      assert (Hsame : zeroed' = zeroed).
      { unfold zeroed'. rewrite Hzeroed.
        destruct Hfield as [-> | ->].
        - rewrite list_insert_insert_eq. reflexivity.
        - rewrite (list_insert_insert_ne _ 2 3) by lia.
          rewrite (list_insert_insert_eq _ 3).
          rewrite (list_insert_insert_ne _ 3 2) by lia. reflexivity. }
      rewrite Hsame, Hcalc in Hcalc'. injection Hcalc' as <-.
      destruct (read16_inv host _ _ _ Hstored) as (b2 & b3 & Hb2 & Hb3 & ->).
      destruct (read16_inv host _ _ _ Hstored') as (b2' & b3' & Hb2' & Hb3' & ->).
      intros Heq. apply load16_inj in Heq as [-> ->].
      destruct Hfield as [-> | ->].
      * rewrite list_lookup_insert_eq in Hb2' by lia. congruence.
      * rewrite list_lookup_insert_eq in Hb3' by lia. congruence.
    + (* the changed byte lies outside the checksum field *)
      assert (Hsame : stored' = c).
      { unfold read16 in Hstored', Hstored.
        rewrite !list_lookup_insert_ne in Hstored' by lia. congruence. }
      assert (Hz : zeroed' = <[i := x]> zeroed).
      { unfold zeroed'. rewrite Hzeroed.
        rewrite (list_insert_insert_ne _ 2 i) by lia.
        rewrite (list_insert_insert_ne _ 3 i) by lia. reflexivity. }
      assert (Hzi : zeroed !! i = Some old).
      { rewrite Hzeroed, !list_lookup_insert_ne by lia. exact Hi. }
      rewrite <- Hlz' in Hcalc'. rewrite (calculate_checksum_whole host) in Hcalc'.
      rewrite <- Hlz in Hcalc. rewrite (calculate_checksum_whole host) in Hcalc.
      injection Hcalc' as <-. injection Hcalc as Hc. rewrite Hsame, <- Hc, Hz.
      intros Heq. symmetry in Heq.
      assert (Hlenz : Z.of_nat (length zeroed) <= 131072) by (rewrite Hlz; exact Hlen).
      exact (checksum_detects_byte_change zeroed i x old Hlenz Hzi Hne Heq).
  - unfold Off.icmp_checksum. rewrite Hrb, read16_app.
    rewrite read16_app_l by (rewrite length_insert; lia). exact Hstored'.
  - unfold Off.icmp_checksum. rewrite Hrb. apply write16_app, write16_app_l. exact Hzero'.
  - rewrite drop_app_length, calculate_checksum_app by lia. exact Hcalc'.
Qed.

End Corruption.

(** ** The probe loop, run after run *)

Section ProbeLoop.

Variable host : endianness.
Variable w : World.

(** The packet that leaves [stamp] passes the receiver's test. *)
Lemma stamp_verifies (sb m : list byte) (sq : Z) :
  length sb = (PACKET_SIZE + sizeof_icmphdr)%nat ->
  stamp host sb sq = Some m ->
  calculate_checksum host m (Z.of_nat (PACKET_SIZE + sizeof_icmphdr)) = Some 0.
Proof.
  unfold stamp. intros Hsb H.
  option_bind_inv H m1 E1. option_bind_inv H m2 E2. option_bind_inv H c Ec.
  pose proof (write16_length host _ _ _ _ E1) as Hl1.
  pose proof (write16_length host _ _ _ _ E2) as Hl2.
  pose proof (write16_length host _ _ _ _ H) as Hl.
  assert (Hlen2 : length m2 = (PACKET_SIZE + sizeof_icmphdr)%nat) by congruence.
  assert (Hzero : read16 host m2 Off.icmp_checksum = Some 0)
    by (apply (read16_write16 host m1 m2 _ 0 E2); lia).
  rewrite <- Hlen2 in Ec. rewrite calculate_checksum_whole in Ec. injection Ec as <-.
  replace (PACKET_SIZE + sizeof_icmphdr)%nat with (length m) by congruence.
  rewrite calculate_checksum_whole. f_equal.
  apply (internet_checksum_stamped host m2 m); [| exact Hzero | exact H].
  rewrite Hlen2. unfold PACKET_SIZE, sizeof_icmphdr. lia.
Qed.

(** X7.  After any number of steps of [main], in any environment, every
packet the program has handed to [sendto] carries a correct checksum:
[calculate_checksum] over its 64 bytes, checksum field included, gives 0,
which is the test a receiver of the packet applies. *)
Theorem sent_packets_verify (n : nat) :
  exists s,
    main host w n = Some s
    /\ Forall (fun p => calculate_checksum host p
                          (Z.of_nat (PACKET_SIZE + sizeof_icmphdr)) = Some 0)
              (sent s).
Proof.
  destruct (main_invariant host w
              (fun s => Forall (fun p => calculate_checksum host p
                                           (Z.of_nat (PACKET_SIZE + sizeof_icmphdr))
                                         = Some 0) (sent s))) with (n := n)
    as (s & Hs & _ & HP).
  - intros s0 Hs0.
    destruct (init_spec host w) as (s0' & Hs0' & _ & _ & _ & _ & Hsent & _).
    rewrite Hs0 in Hs0'. injection Hs0' as <-. rewrite Hsent. constructor.
  - intros s s' Hwf Hall Ht.
    destruct Ht as [| | m _ _ Hm _ | m _ _ Hm _ | | | |]; try exact Hall;
      cbn [sent set_pc emit record_send tick set_send_buffer send_buffer];
      (apply Forall_app; split; [exact Hall |]);
      (constructor; [| constructor]);
      destruct (stamp_frame host _ _ _ Hm) as (Hlen & _);
      rewrite take_ge by (rewrite Hlen, (proj1 Hwf); lia);
      exact (stamp_verifies _ _ _ (proj1 Hwf) Hm).
  - exists s. auto.
Qed.

(** X8.  After any number of steps of [main], in any environment, the
lines written and the probes sent agree: every call of [sendto] is
recorded with its packet, and the number of lines is the number of
probes sent, less the one probe the program is waiting for if it is in
its wait loop.  No probe ends without a line, none gets two, and no line
is written without a probe. *)
Theorem lines_match_probes (n : nat) :
  exists s,
    main host w n = Some s
    /\ length (sent s) = sends s
    /\ (length (output s) + in_flight (pc s))%nat = sends s.
Proof.
  destruct (main_invariant host w
              (fun s => length (sent s) = sends s
                        /\ (length (output s) + in_flight (pc s))%nat = sends s))
    with (n := n) as (s & Hs & _ & HP).
  - intros s0 Hs0. rewrite (init_sends host w s0 Hs0).
    destruct (init_spec host w) as (s0' & Hs0' & _ & _ & _ & Hpc & Hsent & Hout & _).
    rewrite Hs0 in Hs0'. injection Hs0' as <-. rewrite Hpc, Hsent, Hout.
    split; reflexivity.
  - intros s s' _ [Hsent Hlines] Ht.
    destruct Ht as [Hpc | Hpc | m Hpc | m Hpc | start Hpc | start Hpc
                    | start d r Hpc | start d r Hpc];
      rewrite Hpc in Hlines;
      cbn [sent sends output pc set_pc emit record_send tick set_send_buffer
           received deliver record_recv set_recv_buffer in_flight] in *;
      rewrite ?Hpc, ?length_app; cbn [length in_flight]; split; lia.
  - exists s. auto.
Qed.

(** *** A well-formed reply *)

Lemma read8_mid (pre m post : list byte) (i : nat) (v : Z) :
  read8 m i = Some v -> read8 (pre ++ m ++ post) (length pre + i) = Some v.
Proof.
  unfold read8. intros H.
  destruct (m !! i) as [b|] eqn:Hb; [| discriminate].
  rewrite lookup_app_r by lia.
  replace (length pre + i - length pre)%nat with i by lia.
  rewrite (lookup_app_l_Some _ _ _ _ Hb). exact H.
Qed.

Lemma read16_mid (pre m post : list byte) (i : nat) (v : Z) :
  read16 host m i = Some v ->
  read16 host (pre ++ m ++ post) (length pre + i) = Some v.
Proof.
  intros H. rewrite read16_app, read16_app_l; [exact H |].
  destruct (read16_inv host _ _ _ H) as (b0 & b1 & _ & H1 & _).
  exact (lookup_lt_Some _ _ _ H1).
Qed.

Lemma write16_mid (pre m m' post : list byte) (i : nat) (v : Z) :
  write16 host m i v = Some m' ->
  write16 host (pre ++ m ++ post) (length pre + i) v = Some (pre ++ m' ++ post).
Proof. intros H. apply write16_app, write16_app_l, H. Qed.

(** The fields the program reads from a datagram made of an IP header
[ip] and an ICMP message [B], once it lies in the receive buffer. *)
Lemma parse_datagram (ip B zeroed tail : list byte) (vhl ttl : byte)
      (type idv sq stored calc : Z) :
  ip !! 0%nat = Some vhl ->
  length ip = Z.to_nat (Z.land (Bytes.to_Z vhl) 0xF * 4) ->
  (ip ++ B) !! Off.ip_ttl = Some ttl ->
  read8 B Off.icmp_type = Some type ->
  read16 host B Off.icmp_id = Some idv ->
  read16 host B Off.icmp_sequence = Some sq ->
  read16 host B Off.icmp_checksum = Some stored ->
  write16 host B Off.icmp_checksum 0 = Some zeroed ->
  calculate_checksum host zeroed (Z.of_nat (length B)) = Some calc ->
  parse host (ip ++ B ++ tail) (Z.of_nat (length (ip ++ B)))
  = Some (mkReply (length ip) type idv sq stored (Bytes.to_Z ttl) calc).
Proof.
  intros Hvhl Hip Httl Htype Hid Hseq Hstored Hzero Hcalc.
  unfold parse.
  assert (H0 : read8 (ip ++ B ++ tail) Off.ip_ihl = Some (Bytes.to_Z vhl)).
  { unfold read8, Off.ip_ihl. rewrite (lookup_app_l_Some _ _ _ _ Hvhl). reflexivity. }
  rewrite H0. cbn [mbind option_bind]. rewrite <- Hip.
  rewrite (read8_mid ip B tail _ _ Htype). cbn [mbind option_bind].
  rewrite (read16_mid ip B tail _ _ Hid). cbn [mbind option_bind].
  rewrite (read16_mid ip B tail _ _ Hseq). cbn [mbind option_bind].
  rewrite (read16_mid ip B tail _ _ Hstored). cbn [mbind option_bind].
  assert (H8 : read8 (ip ++ B ++ tail) Off.ip_ttl = Some (Bytes.to_Z ttl)).
  { unfold read8. rewrite app_assoc, (lookup_app_l_Some _ _ _ _ Httl). reflexivity. }
  rewrite H8. cbn [mbind option_bind].
  rewrite (write16_mid ip B zeroed tail _ _ Hzero). cbn [mbind option_bind].
  rewrite drop_app_length.
  pose proof (write16_length host _ _ _ _ Hzero) as Hlz.
  rewrite calculate_checksum_app by (rewrite length_app; lia).
  replace (Z.of_nat (length (ip ++ B)) - Z.of_nat (length ip))
    with (Z.of_nat (length B)) by (rewrite length_app; lia).
  rewrite Hcalc. reflexivity.
Qed.

(** X9.  Let the wait loop, within its budget, read a datagram that fits
the receive buffer and is made of an IP header of the length its first
byte announces and an ICMP message of any length with type
[ICMP_ECHOREPLY], the process id masked to 16 bits as identifier, the
outstanding sequence number, and a checksum field that holds the
checksum of the message with that field zeroed.  Whatever the receive
buffer held before, the step ends the wait and writes the reply line with
that sequence number, the byte at offset 8 of the datagram as TTL, and
the clock reading after the read minus the reading before the send. *)
Theorem well_formed_reply_matched
        (s : State) (start : Z) (ip B zeroed : list byte) (vhl ttl : byte) (c : Z) :
  pc s = WaitHead start -> budget_left w s start = true ->
  recvfrom w (recvs s) = Some (ip ++ B) ->
  (length (ip ++ B) <= BUFFER_SIZE)%nat ->
  ip !! 0%nat = Some vhl ->
  length ip = Z.to_nat (Z.land (Bytes.to_Z vhl) 0xF * 4) ->
  (ip ++ B) !! Off.ip_ttl = Some ttl ->
  read8 B Off.icmp_type = Some ICMP_ECHOREPLY ->
  read16 host B Off.icmp_id = Some (Z.land (getpid w) 0xFFFF) ->
  read16 host B Off.icmp_sequence = Some (sequence s) ->
  read16 host B Off.icmp_checksum = Some c ->
  write16 host B Off.icmp_checksum 0 = Some zeroed ->
  calculate_checksum host zeroed (Z.of_nat (length B)) = Some c ->
  step host w s
  = Some (set_pc LoopHead
            (emit (EchoReplyLine (sequence s) (Bytes.to_Z ttl)
                     (now w (S (clock_reads s)) - start))
                  (received (ip ++ B) s))).
Proof.
  intros Hpc Hbudget Hrecv Hfit Hvhl Hip Httl Htype Hid Hseq Hstored Hzero Hcalc.
  unfold step. rewrite Hpc, wait_iteration_eq.
  unfold budget_left in Hbudget. rewrite Hbudget, Hrecv.
  fold (received (ip ++ B) s).
  assert (Hrb : recv_buffer (received (ip ++ B) s)
                = ip ++ B ++ drop (length (ip ++ B)) (recv_buffer s)).
  { cbn [recv_buffer received tick deliver record_recv set_recv_buffer].
    rewrite take_ge by exact Hfit. rewrite <- app_assoc. reflexivity. }
  rewrite take_ge by exact Hfit.
  rewrite (handle_datagram_parse host w _ _ _ _
             (mkReply (length ip) ICMP_ECHOREPLY (Z.land (getpid w) 0xFFFF)
                      (sequence s) c (Bytes.to_Z ttl) c)).
  - unfold is_match, is_candidate.
    cbn [reply_type reply_id reply_sequence reply_checksum reply_recomputed reply_ttl].
    change (sequence (received (ip ++ B) s)) with (sequence s).
    rewrite !Z.eqb_refl. reflexivity.
  - rewrite Hrb. apply (parse_datagram ip B zeroed _ vhl ttl); assumption.
Qed.

(** *** The receive buffer *)

(** X10.  A round of the wait loop changes the receive buffer by what
[recvfrom] delivers and by nothing else.  After a read of datagram [d]
the buffer holds [d], cut to the size of the buffer, followed by the
bytes it held before behind that length, whether or not the datagram
was taken for the reply: the checksum validation, which zeroes the
checksum field in place, leaves no trace.  After a failed read or a
spent budget the buffer is as before.  The send buffer is not touched. *)
Theorem wait_round_receive_buffer (s : State) (start : Z) :
  wf s -> pc s = WaitHead start ->
  exists s',
    step host w s = Some s'
    /\ send_buffer s' = send_buffer s
    /\ recv_buffer s'
       = match (if budget_left w s start then recvfrom w (recvs s) else None) with
         | Some d => take BUFFER_SIZE d
                       ++ drop (length (take BUFFER_SIZE d)) (recv_buffer s)
         | None => recv_buffer s
         end.
Proof.
  intros Hwf Hpc.
  destruct (step_transition host w s Hwf) as (s' & Hstep & Ht).
  exists s'. split; [exact Hstep |].
  destruct Ht as [| | | | start' Hpc' Hb | start' Hpc' Hb Hr
                  | start' d r Hpc' Hb Hr _ _ | start' d r Hpc' Hb Hr _ _];
    try congruence;
    rewrite Hpc in Hpc'; injection Hpc' as <-; rewrite Hb, ?Hr;
    split; reflexivity.
Qed.

(** *** The wait ends *)

Lemma wait_ends_within (fuel : nat) :
  forall (s : State) (start : Z) (K : nat),
  wf s -> pc s = WaitHead start -> (K - clock_reads s <= fuel)%nat ->
  (forall j : nat, (K <= j)%nat ->
                   MAX_WAIT_TIME <= Z.quot (now w j - start) 1000000) ->
  exists (n : nat) (s' : State) (l : Line),
    (1 <= n <= S (K - clock_reads s))%nat
    /\ run host w n s = Some s' /\ wf s'
    /\ pc s' = LoopHead /\ output s' = output s ++ [l]
    /\ sends s' = sends s /\ sent s' = sent s.
Proof.
  induction fuel as [| fuel IH]; intros s start K Hwf Hpc Hfuel Hclock;
    destruct (step_transition host w s Hwf) as (s1 & Hstep & Ht);
    pose proof (transition_wf host w s s1 Hwf Ht) as Hwf1;
    assert (Hrun1 : run host w 1 s = Some s1)
      by (cbn [run]; rewrite Hstep; reflexivity);
    destruct Ht as [| | | | start' Hpc' Hb | start' Hpc' Hb Hr
                    | start' d r Hpc' Hb Hr Hparse Hmatch
                    | start' d r Hpc' Hb Hr Hparse Hmatch];
    try congruence;
    rewrite Hpc in Hpc'; injection Hpc' as <-;
    try solve [exists 1%nat; do 2 eexists;
               split; [lia |]; split; [exact Hrun1 |]; split; [exact Hwf1 |];
               repeat split].
  - (* no budget is left at reading [K] or later *)
    exfalso. unfold budget_left in Hb. apply Z.ltb_lt in Hb.
    pose proof (Hclock (clock_reads s) ltac:(lia)). lia.
  - assert (Hlt : (clock_reads s < K)%nat).
    { destruct (Nat.lt_ge_cases (clock_reads s) K) as [Hlt | Hge]; [exact Hlt |].
      exfalso. unfold budget_left in Hb. apply Z.ltb_lt in Hb.
      pose proof (Hclock (clock_reads s) Hge). lia. }
    destruct (IH (set_pc (WaitHead start) (received d s)) start K Hwf1 eq_refl)
      as (n & s' & l & Hn & Hrun & Hwf' & Hpc' & Hout & Hsends & Hsent).
    + cbn [clock_reads set_pc received tick deliver record_recv set_recv_buffer]. lia.
    + exact Hclock.
    + cbn [clock_reads set_pc received tick deliver record_recv set_recv_buffer] in Hn.
      exists (S n), s', l. split; [lia |].
      split; [cbn [run]; rewrite Hstep; exact Hrun |].
      split; [exact Hwf' |]. split; [exact Hpc' |].
      split; [exact Hout |]. split; [exact Hsends | exact Hsent].
Qed.

(** X11.  The wait for a reply ends.  Let the program be in its wait
loop and let the clock, from its [K]-th reading on, show the budget of
[MAX_WAIT_TIME] milliseconds as spent.  Whatever the network delivers,
and however many datagrams of other senders arrive, the program is back
at the head of the probe loop after at most [K + 1] steps less the
readings already taken, it has written exactly one line for the probe,
and it has sent nothing in between. *)
Theorem wait_ends (s : State) (start : Z) (K : nat) :
  wf s -> pc s = WaitHead start ->
  (forall j : nat, (K <= j)%nat ->
                   MAX_WAIT_TIME <= Z.quot (now w j - start) 1000000) ->
  exists (n : nat) (s' : State) (l : Line),
    (n <= S (K - clock_reads s))%nat
    /\ run host w n s = Some s'
    /\ pc s' = LoopHead /\ output s' = output s ++ [l]
    /\ sends s' = sends s.
Proof.
  intros Hwf Hpc Hclock.
  destruct (wait_ends_within (K - clock_reads s) s start K Hwf Hpc (le_n _) Hclock)
    as (n & s' & l & Hn & Hrun & _ & Hpc' & Hout & Hsends & _).
  exists n, s', l. repeat split; try assumption. lia.
Qed.

(** X12.  The probes never stop.  With a clock that passes every value
sooner or later, [main] sends more than any given number of probes: for
every [N] there is a moment at which the program is at the head of its
loop, has called [sendto] at least [N] times and has written one line
for each of these calls. *)
Theorem probes_without_end (N : nat) :
  (forall t : Z, exists K : nat, forall j : nat, (K <= j)%nat -> t <= now w j) ->
  exists (n : nat) (s : State),
    main host w n = Some s /\ pc s = LoopHead
    /\ (N <= sends s)%nat /\ length (output s) = sends s.
Proof.
  intros Hclock.
  assert (H : exists n s, main host w n = Some s /\ wf s /\ send_count s = 10
                          /\ pc s = LoopHead /\ (N <= sends s)%nat
                          /\ length (output s) = sends s);
    [| destruct H as (n & s & Hs & _ & _ & Hrest); exists n, s; auto].
  induction N as [| N IH].
  - exists 0%nat.
    destruct (init_spec host w) as (s0 & Hs0 & Hwf & Hc & _ & Hpc & _ & Hout & _).
    exists s0. pose proof (init_sends host w s0 Hs0) as Hsends.
    rewrite Hout, Hsends. split; [exact (main_zero host w s0 Hs0) |]. split; [exact Hwf |].
    split; [exact Hc |]. split; [exact Hpc |]. split; [lia | reflexivity].
  - destruct IH as (n & s & Hs & Hwf & Hc & Hpc & HN & Hlines).
    destruct (step_transition host w s Hwf) as (s1 & Hstep & Ht).
    pose proof (transition_wf host w s s1 Hwf Ht) as Hwf1.
    assert (Hmain1 : main host w (n + 1) = Some s1).
    { rewrite main_add, Hs. cbn [mbind option_bind run]. rewrite Hstep. reflexivity. }
    destruct Ht as [_ Hle | Hpc' | m _ _ _ _ | m _ _ _ _ | start Hpc' _
                    | start Hpc' _ _ | start d r Hpc' _ _ _ _
                    | start d r Hpc' _ _ _ _];
      try (exfalso; rewrite Hpc in Hpc'; discriminate Hpc').
    + exfalso. clear - Hc Hle. lia.
    + (* the send failed: the probe is over *)
      exists (n + 1)%nat. eexists. split; [exact Hmain1 |].
      split; [exact Hwf1 |].
      cbn [send_count pc sends output set_pc emit record_send tick set_send_buffer].
      rewrite length_app. cbn [length].
      split; [exact Hc |]. split; [reflexivity |]. split; lia.
    + (* the probe is out: the wait ends *)
      set (s1 := set_pc (WaitHead (now w (clock_reads s)))
                   (record_send (tick (set_send_buffer m s)))) in *.
      destruct (Hclock (now w (clock_reads s) + MAX_WAIT_TIME * 1000000)) as [K HK].
      destruct (wait_ends_within (K - clock_reads s1) s1 (now w (clock_reads s)) K
                  Hwf1 eq_refl (le_n _))
        as (k & s2 & l & _ & Hrun & Hwf2 & Hpc2 & Hout2 & Hsends2 & _).
      { intros j Hj. pose proof (HK j Hj) as Hnow.
        unfold MAX_WAIT_TIME in *.
        apply Z.quot_le_lower_bound; lia. }
      exists (n + 1 + k)%nat, s2. split.
      { rewrite main_add, Hmain1. exact Hrun. }
      split; [exact Hwf2 |].
      assert (Hc2 : send_count s2 = 10).
      { destruct (run_invariant host w (fun s => send_count s = 10)) with (n := k) (s := s1)
          as (s2' & Hrun' & _ & Hc').
        - intros a b _ Ha Hab.
          destruct (transition_counters host w a b Hab) as [Hcount _].
          rewrite Hcount. exact Ha.
        - exact Hwf1.
        - exact Hc.
        - rewrite Hrun in Hrun'. injection Hrun' as <-. exact Hc'. }
      split; [exact Hc2 |]. split; [exact Hpc2 |].
      assert (Hsends1 : sends s1 = S (sends s)) by reflexivity.
      assert (Hout1 : output s1 = output s) by reflexivity.
      rewrite Hsends2, Hout2, length_app, Hsends1, Hout1. cbn [length].
      clear - HN Hlines. split; lia.
Qed.

End ProbeLoop.

(** ** One packet, sent again and again *)

Section OnePacket.

Variable host : endianness.

(** Stamping looks at no byte of the sequence and checksum fields. *)
Lemma stamp_ext (sb sb' : list byte) (sq : Z) :
  length sb = length sb' ->
  (forall i : nat, i <> 2%nat -> i <> 3%nat -> i <> 6%nat -> i <> 7%nat ->
                   sb !! i = sb' !! i) ->
  stamp host sb sq = stamp host sb' sq.
Proof.
  intros Hlen Hagree. unfold stamp, Off.icmp_sequence, Off.icmp_checksum.
  destruct (decide (7 < length sb)%nat) as [H7 | H7].
  2: { assert (Hout : forall m : list byte, length m = length sb ->
                                          write16 host m 6 (u16 sq) = None).
       { intros m Hm. unfold write16. rewrite Hm.
         destruct (decide (7 < length sb)%nat); [lia | reflexivity]. }
       rewrite (Hout sb eq_refl), (Hout sb' (eq_sym Hlen)). reflexivity. }
  rewrite (write16_lt host sb 6), (write16_lt host sb' 6) by lia.
  cbn [mbind option_bind].
  rewrite !(write16_lt host _ 2 0) by (rewrite !length_insert; lia).
  cbn [mbind option_bind].
  match goal with
  | |- mbind _ (calculate_checksum _ ?a _) = mbind _ (calculate_checksum _ ?b _) =>
      assert (Heq : a = b); [| rewrite Heq; reflexivity]
  end.
  apply list_eq. intros i.
  destruct (decide (i = 3%nat)) as [-> | N3];
    [rewrite !list_lookup_insert_eq by (rewrite ?length_insert; lia); reflexivity |].
  rewrite !(list_lookup_insert_ne _ 3 i) by lia.
  destruct (decide (i = 2%nat)) as [-> | N2];
    [rewrite !list_lookup_insert_eq by (rewrite ?length_insert; lia); reflexivity |].
  rewrite !(list_lookup_insert_ne _ 2 i) by lia.
  destruct (decide (i = 7%nat)) as [-> | N7];
    [rewrite !list_lookup_insert_eq by (rewrite ?length_insert; lia); reflexivity |].
  rewrite !(list_lookup_insert_ne _ 7 i) by lia.
  destruct (decide (i = 6%nat)) as [-> | N6];
    [rewrite !list_lookup_insert_eq by (rewrite ?length_insert; lia); reflexivity |].
  rewrite !(list_lookup_insert_ne _ 6 i) by lia.
  apply Hagree; assumption.
Qed.

(** Two buffers with the fields set before the loop, for the same process
id, differ in the sequence and checksum fields at most. *)
Lemma fixed_fields_agree (w1 w2 : World) (sb1 sb2 : list byte) :
  getpid w1 = getpid w2 ->
  fixed_fields host w1 sb1 -> fixed_fields host w2 sb2 ->
  length sb1 = length sb2
  /\ forall i : nat, i <> 2%nat -> i <> 3%nat -> i <> 6%nat -> i <> 7%nat ->
                     sb1 !! i = sb2 !! i.
Proof.
  intros Hpid (Hl1 & Ht1 & Hc1 & Hi1 & Hp1) (Hl2 & Ht2 & Hc2 & Hi2 & Hp2).
  split; [congruence |]. intros i N2 N3 N6 N7.
  unfold sizeof_icmphdr, PACKET_SIZE in *.
  assert (Hread8 : forall j : nat, read8 sb1 j = read8 sb2 j -> (j < 64)%nat ->
                                   sb1 !! j = sb2 !! j).
  { intros j Hj Hlt. unfold read8 in Hj.
    destruct (lookup_lt_is_Some_2 sb1 j ltac:(lia)) as [a Ha].
    destruct (lookup_lt_is_Some_2 sb2 j ltac:(lia)) as [b Hb].
    rewrite Ha, Hb in *. cbn in Hj. injection Hj as Hj.
    f_equal. apply to_Z_inj, Hj. }
  destruct (decide (i < 64)%nat) as [Hlt | Hge];
    [| rewrite !lookup_ge_None_2 by lia; reflexivity].
  destruct (decide (8 <= i)%nat) as [Hpay | Hhdr].
  - apply Hread8; [| exact Hlt]. rewrite Hp1, Hp2 by lia. reflexivity.
  - rewrite Hpid in Hi1. rewrite <- Hi2 in Hi1.
    destruct (read16_inv host _ _ _ Hi2) as (a0 & a1 & Ha0 & Ha1 & Hv).
    unfold read16, Off.icmp_id in Hi1, Ha0, Ha1. rewrite Ha0, Ha1 in Hi1.
    destruct (sb1 !! 4%nat) as [c0|] eqn:Hc0; [| discriminate].
    destruct (sb1 !! 5%nat) as [c1|] eqn:Hc1'; [| discriminate].
    cbn [mbind option_bind] in Hi1. injection Hi1 as Hi1.
    apply load16_inj in Hi1 as [-> ->].
    assert (Hi : i = 0%nat \/ i = 1%nat \/ i = 4%nat \/ i = 5%nat) by lia.
    destruct Hi as [-> | [-> | [-> | ->]]].
    + apply Hread8; [| lia]. unfold Off.icmp_type in *. congruence.
    + apply Hread8; [| lia]. unfold Off.icmp_code in *. congruence.
    + congruence.
    + congruence.
Qed.

(** Every packet sent is the stamp, for sequence number 0, of a buffer
with the fields set before the loop. *)
Lemma sent_packets_stamped (w : World) (n : nat) :
  exists s,
    main host w n = Some s
    /\ Forall (fun p => exists sb, fixed_fields host w sb
                                   /\ stamp host sb 0 = Some p) (sent s).
Proof.
  destruct (main_invariant host w
              (fun s => sequence s = 0 /\ fixed_fields host w (send_buffer s)
                        /\ Forall (fun p => exists sb, fixed_fields host w sb
                                                       /\ stamp host sb 0 = Some p)
                                  (sent s))) with (n := n)
    as (s & Hs & _ & _ & _ & HP).
  - intros s0 Hs0.
    destruct (init_spec host w)
      as (s0' & Hs0' & _ & _ & Hseq & _ & Hsent & _ & _ & Hfixed).
    rewrite Hs0 in Hs0'. injection Hs0' as <-. rewrite Hsent.
    split; [exact Hseq |]. split; [exact Hfixed | constructor].
  - intros s s' Hwf (Hseq & Hfixed & Hall) Ht.
    destruct (transition_counters host w s s' Ht) as [_ Hseq'].
    destruct (transition_send_buffer host w s s' Ht) as [Hlen Hframe].
    split; [rewrite Hseq'; exact Hseq |].
    split; [exact (fixed_fields_frame host w _ _ Hlen Hframe Hfixed) |].
    destruct Ht as [| | m _ _ Hm _ | m _ _ Hm _ | | | |]; try exact Hall;
      cbn [sent set_pc emit record_send tick set_send_buffer send_buffer];
      (apply Forall_app; split; [exact Hall |]);
      (constructor; [| constructor]);
      destruct (stamp_frame host _ _ _ Hm) as (Hlenm & _);
      rewrite take_ge by (rewrite Hlenm, (proj1 Hwf); lia);
      exists (send_buffer s); rewrite <- Hseq; auto.
  - exists s. auto.
Qed.

(** X14.  Every probe is the same packet.  Take any two runs of [main],
of any lengths, in any two environments in which the process has the same
id: whatever the clocks, the network and the contents of uninitialised
memory, any packet handed to [sendto] in the one is, byte for byte, any
packet handed to [sendto] in the other.  In particular no uninitialised
byte of the send buffer is ever sent, and the probes of one run do not
differ from each other. *)
Theorem every_probe_is_the_same_packet (w1 w2 : World) (n1 n2 : nat) :
  getpid w1 = getpid w2 ->
  exists s1 s2,
    main host w1 n1 = Some s1 /\ main host w2 n2 = Some s2
    /\ forall p1 p2 : list byte, p1 ∈ sent s1 -> p2 ∈ sent s2 -> p1 = p2.
Proof.
  intros Hpid.
  destruct (sent_packets_stamped w1 n1) as (s1 & Hs1 & Hall1).
  destruct (sent_packets_stamped w2 n2) as (s2 & Hs2 & Hall2).
  exists s1, s2. split; [exact Hs1 |]. split; [exact Hs2 |].
  intros p1 p2 Hp1 Hp2.
  rewrite Forall_forall in Hall1, Hall2.
  destruct (Hall1 p1 Hp1) as (sb1 & Hf1 & Hst1).
  destruct (Hall2 p2 Hp2) as (sb2 & Hf2 & Hst2).
  destruct (fixed_fields_agree w1 w2 sb1 sb2 Hpid Hf1 Hf2) as [Hlen Hagree].
  rewrite (stamp_ext sb1 sb2 0 Hlen Hagree) in Hst1. congruence.
Qed.

End OnePacket.

(** ** The further properties, on the scenarios *)

Module ExtraFacts.

Import Scenario.

(** The first 64 bytes of an echo reply with two more bytes behind it. *)
Lemma calculate_checksum_prefix_witness :
  let b := echo_reply 1234 0 payload ++ [xff; xff] in
  0 <= 64 <= Z.of_nat (length b)
  /\ calculate_checksum host b 64 = Some (internet_checksum host (take 64 b)).
Proof.
  cbv zeta. split; [simpl; lia |].
  apply (calculate_checksum_prefix host (echo_reply 1234 0 payload ++ [xff; xff]) 64).
  simpl. lia.
Defined.

(** A datagram of 20 bytes whose header announces 40: the length passed
    to the checksum routine is -20. *)
Lemma calculate_checksum_no_bytes_witness :
  -20 <= 0 /\ calculate_checksum host [] (-20) = Some 0xFFFF.
Proof.
  split; [lia |]. apply (calculate_checksum_no_bytes host [] (-20)). lia.
Defined.

(** The echo reply of scenario [prompt] with its checksum field zero. *)
Lemma checksum_ones_complement_witness :
  let b := icmp_message ICMP_ECHOREPLY 0 1234 0 payload in
  calculate_checksum host b (Z.of_nat (length b)) = Some 1878
  /\ (word_sum host b + 1878) mod 0xFFFF = 0
  /\ word_sum host b <> 0.
Proof.
  cbv zeta. split; [vm_compute; reflexivity |].
  destruct (checksum_ones_complement host
              (icmp_message ICMP_ECHOREPLY 0 1234 0 payload) 1878)
    as (_ & Hmod & Hzero).
  - simpl. lia.
  - vm_compute. reflexivity.
  - split; [exact Hmod |]. intros H. apply Hzero in H. discriminate H.
Defined.

(** The echo reply of scenario [prompt] passes the receiver's test. *)
Lemma checksum_of_stamped_is_zero_witness :
  let B := icmp_message ICMP_ECHOREPLY 0 1234 0 payload in
  let B' := echo_reply 1234 0 payload in
  read16 host B Off.icmp_checksum = Some 0
  /\ write16 host B Off.icmp_checksum 1878 = Some B'
  /\ calculate_checksum host B' (Z.of_nat (length B')) = Some 0.
Proof.
  cbv zeta. split; [vm_compute; reflexivity |]. split; [vm_compute; reflexivity |].
  apply (checksum_of_stamped_is_zero host
           (icmp_message ICMP_ECHOREPLY 0 1234 0 payload)
           (echo_reply 1234 0 payload) 1878).
  - simpl. lia.
  - vm_compute. reflexivity.
  - vm_compute. reflexivity.
  - vm_compute. reflexivity.
Defined.

(** The checksum of the same message is [0x0756] on a little-endian host
    and [0x5607] on a big-endian one: the bytes [56 07] in memory on both. *)
Lemma checksum_bytes_independent_of_byte_order_witness :
  let b := icmp_message ICMP_ECHOREPLY 0 1234 0 payload in
  calculate_checksum LittleEndian b (Z.of_nat (length b)) = Some 1878
  /\ calculate_checksum BigEndian b (Z.of_nat (length b)) = Some 22023
  /\ store16 LittleEndian 1878 = store16 BigEndian 22023.
Proof.
  cbv zeta. split; [vm_compute; reflexivity |]. split; [vm_compute; reflexivity |].
  apply (checksum_bytes_independent_of_byte_order
           (icmp_message ICMP_ECHOREPLY 0 1234 0 payload) 1878 22023).
  - vm_compute. reflexivity.
  - simpl. lia.
  - vm_compute. reflexivity.
  - vm_compute. reflexivity.
Defined.

(** The echo reply of scenario [prompt] with the second byte of its
    payload changed from [09] to [ff], behind its IP header and in front
    of two bytes of an older datagram. *)
Lemma changed_byte_fails_validation_witness :
  let B := echo_reply 1234 0 payload in
  let s := mkState 10 0 []
                   (ip_header 55 [x08; x08; x08; x08]
                      ++ <[9%nat := xff]> B ++ [xaa; xbb])
                   0 0 0 [] [] (WaitHead 0) in
  B !! 9%nat = Some x09
  /\ validate_checksum host 20 64 s = Some (false, s).
Proof.
  cbv zeta. split; [vm_compute; reflexivity |].
  apply (changed_byte_fails_validation host
           (mkState 10 0 []
                    (ip_header 55 [x08; x08; x08; x08]
                       ++ <[9%nat := xff]> (echo_reply 1234 0 payload) ++ [xaa; xbb])
                    0 0 0 [] [] (WaitHead 0))
           (ip_header 55 [x08; x08; x08; x08])
           (echo_reply 1234 0 payload)
           (icmp_message ICMP_ECHOREPLY 0 1234 0 payload)
           [xaa; xbb] 9 xff x09 1878).
  - simpl. lia.
  - vm_compute. reflexivity.
  - vm_compute. reflexivity.
  - vm_compute. reflexivity.
  - vm_compute. reflexivity.
  - discriminate.
  - reflexivity.
Defined.

(** The reply of scenario [prompt] is taken for the first probe. *)
Lemma well_formed_reply_matched_witness :
  exists s',
    step host prompt (after prompt 1) = Some s'
    /\ pc s' = LoopHead /\ output s' = [EchoReplyLine 0 55 50000000].
Proof.
  eexists. split.
  - apply (well_formed_reply_matched host prompt (after prompt 1) 0
             (ip_header 55 [x08; x08; x08; x08])
             (echo_reply 1234 0 payload)
             (icmp_message ICMP_ECHOREPLY 0 1234 0 payload)
             x45 x37 1878).
    + vm_compute. reflexivity.
    + vm_compute. reflexivity.
    + reflexivity.
    + vm_compute. lia.
    + reflexivity.
    + vm_compute. reflexivity.
    + vm_compute. reflexivity.
    + vm_compute. reflexivity.
    + vm_compute. reflexivity.
    + vm_compute. reflexivity.
    + vm_compute. reflexivity.
    + vm_compute. reflexivity.
    + vm_compute. reflexivity.
  - split; vm_compute; reflexivity.
Defined.

(** In scenario [corrupted] the datagram is refused, and the receive
    buffer holds it as it came, the changed checksum byte included. *)
Lemma wait_round_receive_buffer_witness :
  wf (after corrupted 1) /\ pc (after corrupted 1) = WaitHead 0
  /\ exists s',
       step host corrupted (after corrupted 1) = Some s'
       /\ take 84 (recv_buffer s')
          = ip_header 55 [x08; x08; x08; x08]
              ++ <[2%nat := x00]> (echo_reply 1234 0 payload).
Proof.
  split; [apply ScenarioFacts.after_wf |]. split; [vm_compute; reflexivity |].
  destruct (wait_round_receive_buffer host corrupted (after corrupted 1) 0)
    as (s' & Hstep & _ & Hrb).
  - apply ScenarioFacts.after_wf.
  - vm_compute. reflexivity.
  - exists s'. split; [exact Hstep |]. rewrite Hrb. vm_compute. reflexivity.
Defined.

(** In scenario [late] the clock shows 1500 ms from its fifth reading on. *)
Lemma wait_ends_witness :
  exists (n : nat) (s' : State) (l : Line),
    (n <= 4)%nat
    /\ run host late n (after late 1) = Some s'
    /\ pc s' = LoopHead /\ output s' = [l].
Proof.
  destruct (wait_ends host late (after late 1) 0 4)
    as (n & s' & l & Hn & Hrun & Hpc & Hout & _).
  - apply ScenarioFacts.after_wf.
  - vm_compute. reflexivity.
  - intros j Hj. destruct j as [| [| [| [| j]]]]; try lia.
    cbn [now late]. vm_compute. intros H. discriminate H.
  - exists n, s', l. split; [exact Hn |]. split; [exact Hrun |].
    split; [exact Hpc | exact Hout].
Defined.

Lemma quiet_clock_unbounded (t : Z) :
  exists K : nat, forall j : nat, (K <= j)%nat -> t <= now quiet j.
Proof. exists (Z.to_nat t). intros j Hj. cbn [now quiet]. lia. Qed.

(** In scenario [quiet] an eleventh probe is sent. *)
Lemma probes_without_end_witness :
  exists (n : nat) (s : State),
    main host quiet n = Some s /\ pc s = LoopHead
    /\ (11 <= sends s)%nat /\ length (output s) = sends s.
Proof. apply (probes_without_end host quiet 11), quiet_clock_unbounded. Defined.

(** Three steps in scenario [quiet] hand two packets to [sendto], four
    steps in scenario [dirty] three. *)
Lemma every_probe_is_the_same_packet_witness :
  exists s1 s2,
    main host quiet 3 = Some s1 /\ main host dirty 4 = Some s2
    /\ forall p1 p2 : list byte, p1 ∈ sent s1 -> p2 ∈ sent s2 -> p1 = p2.
Proof. apply (every_probe_is_the_same_packet host quiet dirty 3 4). reflexivity. Defined.

End ExtraFacts.
